(** * MAAS web UI: VLANsManager and SubnetDetailsController

    A shallow embedding of two AngularJS sources of MAAS,

    - [maasserver/static/js/angular/factories/vlans.js] (the VLANsManager
      factory), and
    - the SubnetDetailsController (subnet details page),

    together with the properties of their RPC traffic, their scope state and
    their error behaviour.

    JavaScript values are dynamically typed, so the embedding works over a
    small universe of values with a heap of objects (objects have identity and
    are shared between the managers and the scope).  Every function of the
    sources is a computation in a state-and-exception monad over the state of
    the page: functions that JavaScript would abort with a TypeError return
    [Throws] and keep the writes made before the fault. *)

From Stdlib Require Import Ascii String.
From stdpp Require Import gmap strings list pretty.

(** ** JavaScript values *)

Module JS.

(** Heap addresses: the identity of an object. *)
Definition loc := nat.

(** Numbers are modelled where they are integer valued ([VNum]) or NaN
    ([VNaN], the result of a failed [parseInt]); primary keys, VLAN ids and
    the type codes of the sources are all integers.  A function value is
    named by the scope member that holds it, an injected service (a
    singleton object) by its name. *)
Inductive value : Type :=
  | VUndefined
  | VNull
  | VBool (b : bool)
  | VNaN
  | VNum (n : Z)
  | VStr (s : string)
  | VFun (f : string)
  | VService (name : string)
  | VPromise (p : nat)
  | VRef (l : loc).

#[global] Instance value_eq_dec : EqDecision value.
Proof. solve_decision. Defined.

#[global] Instance value_inhabited : Inhabited value := populate VUndefined.

(** An object is a finite map from property names to values, or an array. *)
Inductive object : Type :=
  | Obj (fields : gmap string value)
  | Arr (elems : list value).

(** [a === b].  NaN is different from everything, itself included; objects,
    promises and functions compare by identity. *)
Definition strict_eq (a b : value) : bool :=
  match a with
  | VNaN => false
  | _ => bool_decide (a = b)
  end.

(** ToBoolean. *)
Definition truthy (v : value) : bool :=
  match v with
  | VUndefined | VNull | VNaN => false
  | VBool b => b
  | VNum n => negb (n =? 0)%Z
  | VStr s => negb (String.eqb s "")
  | VFun _ | VService _ | VPromise _ | VRef _ => true
  end.

(** [!v]. *)
Definition js_not (v : value) : value := VBool (negb (truthy v)).

(** [angular.isString(v)]: [typeof v === "string"]. *)
Definition isString (v : value) : bool :=
  match v with VStr _ => true | _ => false end.

(** [angular.isObject(v)]: [v !== null && typeof v === "object"]. *)
Definition isObject (v : value) : bool :=
  match v with VRef _ | VPromise _ | VService _ => true | _ => false end.

(** [isNaN(v)] on a number. *)
Definition isNaN (v : value) : bool :=
  match v with VNaN => true | _ => false end.

(** ToString.  An integer prints as its decimal numeral; that is what
    JavaScript prints for the integers it holds exactly (up to
    [Number.MAX_SAFE_INTEGER] in size; beyond, it rounds and, from 10^21,
    prints an exponent), and the statements below that show a printed number
    are stated for those.  Converting an object runs no user code here: it
    prints as a plain object does (an array would print its elements), and a
    function as its name; no statement below shows the string of an object
    or of a function. *)
Definition to_string (v : value) : string :=
  match v with
  | VUndefined => "undefined"
  | VNull => "null"
  | VBool true => "true"
  | VBool false => "false"
  | VNaN => "NaN"
  | VNum n => pretty n
  | VStr s => s
  | VFun f => f
  | VService _ | VPromise _ | VRef _ => "[object Object]"
  end.

(** ToNumber on the values that are not converted to strings by [+]. *)
Definition to_number (v : value) : value :=
  match v with
  | VNull => VNum 0
  | VBool true => VNum 1
  | VBool false => VNum 0
  | VNum n => VNum n
  | _ => VNaN
  end.

(** ToPrimitive of the value is a string. *)
Definition stringish (v : value) : bool :=
  match v with
  | VStr _ | VFun _ | VService _ | VPromise _ | VRef _ => true
  | _ => false
  end.

(** [a + b]: concatenation as soon as one side is a string, addition of
    numbers otherwise. *)
Definition js_add (a b : value) : value :=
  if stringish a || stringish b then VStr (to_string a +:+ to_string b)
  else match to_number a, to_number b with
       | VNum x, VNum y => VNum (x + y)
       | _, _ => VNaN
       end.

(** [v.k] read in heap [h]; [None] stands for the TypeError of reading a
    property of [undefined] or [null].  A missing property reads as
    [undefined].  Properties found on prototypes are not modelled, except
    the length of a string or an array. *)
Definition read (h : list object) (v : value) (k : string) : option value :=
  match v with
  | VUndefined | VNull => None
  | VRef l =>
      match h !! l with
      | Some (Obj o) => Some (default VUndefined (o !! k))
      | Some (Arr es) =>
          Some (if String.eqb k "length" then VNum (Z.of_nat (length es))
                else VUndefined)
      | None => Some VUndefined
      end
  | VStr s =>
      Some (if String.eqb k "length" then VNum (Z.of_nat (String.length s))
            else VUndefined)
  | _ => Some VUndefined
  end.

(** [v.k = x] in heap [h]; [None] is again the TypeError on [undefined] and
    [null].  Writing a property of a primitive does nothing; the sources
    write properties of plain objects only. *)
Definition write (h : list object) (v : value) (k : string) (x : value)
  : option (list object) :=
  match v with
  | VUndefined | VNull => None
  | VRef l =>
      match h !! l with
      | Some (Obj o) => Some (<[l := Obj (<[k := x]> o)]> h)
      | _ => Some h
      end
  | _ => Some h
  end.

End JS.

Import JS.

(** ** The state of the page *)

(** The continuations the sources attach to promises with [.then]. *)
Inductive callback : Type :=
  | OnManagersLoaded   (* ManagerHelperService.loadManagers([...]).then *)
  | OnActiveItemSet    (* SubnetsManager.setActiveItem(id).then *)
  | OnSubnetDeleted    (* SubnetsManager.deleteSubnet(subnet).then *)
  | OnIPRangeDeleted.  (* IPRangesManager.deleteItem(range).then *)

(** The listeners the controller registers with [$scope.$watch]. *)
Inductive listener : Type :=
  | UpdateFabric
  | UpdateIPVersion.

(** How a promise settles. *)
Inductive settlement : Type :=
  | Resolved (result : value)
  | Rejected (error : value).

(** A call of an asynchronous method of an injected service: the method, the
    arguments as they were passed, and the promise the call returned.  The
    services themselves ([RegionConnection], the base [Manager], the other
    managers, [ManagerHelperService]) are collaborators of the two sources;
    what the sources do with them is the calls they make. *)
Record call : Type := Call {
  target : string;
  args : list value;
}.

#[global] Instance call_eq_dec : EqDecision call.
Proof. solve_decision. Defined.

(** The members of [$scope] that the controller assigns.  The members bound
    once to the injected managers and to their live collections
    ([subnetManager], [ipranges], [iprangeManager], [spaces], [vlans],
    [fabrics]) are never read or reassigned by the controller and are left
    out. *)
Record Scope : Type := MkScope {
  loaded : value;
  subnet : value;
  reverse : value;
  newRange : value;
  editIPRange : value;
  deleteIPRange : value;
  predicate : value;
  error : value;
  confirmingDelete : value;
  ipVersion : value;
}.

Record world : Type := World {
  heap : list object;              (* the objects, by address *)
  calls : list call;               (* service calls made; the n-th returned promise n *)
  thens : list (nat * callback);   (* continuations attached, by promise *)
  vlans : list value;              (* VLANsManager._items *)
  fabrics : list value;            (* FabricsManager._items *)
  subnets : list value;            (* SubnetsManager._items *)
  active : value;                  (* SubnetsManager's active item *)
  scope : Scope;                   (* $scope *)
  title : value;                   (* $rootScope.title *)
  page : value;                    (* $rootScope.page *)
  path : value;                    (* $location.path() *)
  raised : list value;             (* ErrorService.raiseError(...) *)
  watches : list (string * listener);  (* $scope.$watch(...) *)
  subnet_id : value;               (* $routeParams.subnet_id *)
}.

Definition set_heap (h : list object) (w : world) : world :=
  World h (calls w) (thens w) (vlans w) (fabrics w) (subnets w) (active w)
        (scope w) (title w) (page w) (path w) (raised w) (watches w)
        (subnet_id w).

Definition set_calls (c : list call) (w : world) : world :=
  World (heap w) c (thens w) (vlans w) (fabrics w) (subnets w) (active w)
        (scope w) (title w) (page w) (path w) (raised w) (watches w)
        (subnet_id w).

Definition set_thens (t : list (nat * callback)) (w : world) : world :=
  World (heap w) (calls w) t (vlans w) (fabrics w) (subnets w) (active w)
        (scope w) (title w) (page w) (path w) (raised w) (watches w)
        (subnet_id w).

Definition set_scope (s : Scope) (w : world) : world :=
  World (heap w) (calls w) (thens w) (vlans w) (fabrics w) (subnets w)
        (active w) s (title w) (page w) (path w) (raised w) (watches w)
        (subnet_id w).

Definition set_title (v : value) (w : world) : world :=
  World (heap w) (calls w) (thens w) (vlans w) (fabrics w) (subnets w)
        (active w) (scope w) v (page w) (path w) (raised w) (watches w)
        (subnet_id w).

Definition set_page (v : value) (w : world) : world :=
  World (heap w) (calls w) (thens w) (vlans w) (fabrics w) (subnets w)
        (active w) (scope w) (title w) v (path w) (raised w) (watches w)
        (subnet_id w).

Definition set_path (v : value) (w : world) : world :=
  World (heap w) (calls w) (thens w) (vlans w) (fabrics w) (subnets w)
        (active w) (scope w) (title w) (page w) v (raised w) (watches w)
        (subnet_id w).

Definition set_raised (r : list value) (w : world) : world :=
  World (heap w) (calls w) (thens w) (vlans w) (fabrics w) (subnets w)
        (active w) (scope w) (title w) (page w) (path w) r (watches w)
        (subnet_id w).

Definition set_watches (ws : list (string * listener)) (w : world) : world :=
  World (heap w) (calls w) (thens w) (vlans w) (fabrics w) (subnets w)
        (active w) (scope w) (title w) (page w) (path w) (raised w) ws
        (subnet_id w).

(** ** Computations *)

Inductive exn : Type :=
  | TypeError.

Inductive outcome (A : Type) : Type :=
  | Returns (a : A)
  | Throws (e : exn).
Arguments Returns {A} a.
Arguments Throws {A} e.

(** A computation runs in a world and ends in a world: also when it throws,
    since JavaScript does not undo the writes made before an exception. *)
Definition M (A : Type) : Type := world → outcome A * world.

#[global] Instance M_ret : MRet M := λ A a w, (Returns a, w).

#[global] Instance M_bind : MBind M := λ A B f m w,
  match m w with
  | (Returns a, w') => f a w'
  | (Throws e, w') => (Throws e, w')
  end.

Definition throw {A} (e : exn) : M A := λ w, (Throws e, w).

(** Where a computation ends, and with what. *)
Definition exec {A} (m : M A) (w : world) : world := (m w).2.
Definition result {A} (m : M A) (w : world) : outcome A := (m w).1.

(** The world as a computation sees it, and a write to it. *)
Definition gets {A} (f : world → A) : M A := λ w, (Returns (f w), w).
Definition modify (f : world → world) : M unit := λ w, (Returns tt, f w).

(** [v.k] *)
Definition get (v : value) (k : string) : M value := λ w,
  match read (heap w) v k with
  | Some x => (Returns x, w)
  | None => (Throws TypeError, w)
  end.

(** [v.k = x] *)
Definition put (v : value) (k : string) (x : value) : M unit := λ w,
  match write (heap w) v k x with
  | Some h => (Returns tt, set_heap h w)
  | None => (Throws TypeError, w)
  end.

(** An object or array literal: a fresh object, at the next free address. *)
Definition alloc (o : object) : M value := λ w,
  (Returns (VRef (length (heap w))), set_heap (heap w ++ [o]) w).

(** A call of an asynchronous service method: it is sent and returns a new
    promise. *)
Definition invoke (f : string) (xs : list value) : M value := λ w,
  (Returns (VPromise (length (calls w))), set_calls (calls w ++ [Call f xs]) w).

(** [promise.then(...)] with the continuation [cb]. *)
Definition then_ (p : value) (cb : callback) : M unit := λ w,
  match p with
  | VPromise n => (Returns tt, set_thens (thens w ++ [(n, cb)]) w)
  | _ => (Throws TypeError, w)
  end.

(** [v.push(x)]: a method of arrays, which grows the array in place and
    returns its new length.  Calling it on anything else is a TypeError
    ([undefined] has no properties, and no other value of the sources has a
    method [push]). *)
Definition push (v x : value) : M value := λ w,
  match v with
  | VRef l =>
      match heap w !! l with
      | Some (Arr es) =>
          (Returns (VNum (Z.of_nat (length es) + 1)),
           set_heap (<[l := Arr (es ++ [x])]> (heap w)) w)
      | _ => (Throws TypeError, w)
      end
  | _ => (Throws TypeError, w)
  end.

(** The outcome of a function that reads and writes nothing. *)
Definition lift {A} (o : outcome A) : M A := λ w, (o, w).

(** ** The base Manager, as far as the two sources use it *)

Module Manager.

(** Modelled from the spec: the lookup of a manager, which is not among the
    sources.  The spec gives it as [getItem(pk) -> ManagedObject | undefined],
    a lookup by primary key in the cached collection; the primary key of every
    manager used here is ["id"].  [has_pk] is the test of one item. *)
Definition has_pk (h : list object) (pk item : value) : bool :=
  match read h item "id" with
  | Some x => strict_eq x pk
  | None => false
  end.

(** Modelled from the spec: the item with primary key [pk], [undefined] when
    the collection has none. *)
Definition lookup_pk (h : list object) (items : list value) (pk : value)
  : value :=
  default VUndefined (find (has_pk h pk) items).

(** Modelled from the spec: [Manager.prototype.getItemFromList], the lookup
    in the collection [items] of a manager. *)
Definition getItemFromList (items : world → list value) (pk : value)
  : M value :=
  gets (λ w, lookup_pk (heap w) (items w) pk).

(** Modelled from the spec: [Manager.prototype.getItem], the same lookup
    ([getItem(pk) -> ManagedObject | undefined]). *)
Definition getItem (items : world → list value) (pk : value) : M value :=
  getItemFromList items pk.

End Manager.

(** ** RegionConnection *)

Module RegionConnection.

(** Modelled from the spec: [RegionConnection.callMethod], which is not among
    the sources.  The spec gives it as
    [callMethod(methodName, params, suppressErrorDialog=false) -> promise]:
    the request is sent and the promise of its response returned.  The
    arguments are recorded as the caller passed them. *)
Definition callMethod (method : string) (rest : list value) : M value :=
  invoke "RegionConnection.callMethod" (VStr method :: rest).

End RegionConnection.

(** ** VLANsManager (factories/vlans.js) *)

Module VLANsManager.

(** Set by the constructor. *)
Definition _pk : string := "id".
Definition _handler : string := "vlan".

(** [VLANsManager.prototype.getName] *)
Definition getName (vlan : value) : M value :=
  name ← get vlan "vid";
  vid ← get vlan "vid";
  if strict_eq vid (VNum 0) then
    mret (VStr "untagged")
  else
    vlan_name ← get vlan "name";
    if isString vlan_name && negb (strict_eq vlan_name (VStr "")) then
      vlan_name' ← get vlan "name";
      mret (js_add name (js_add (js_add (VStr " (") vlan_name') (VStr ")")))
    else
      mret name.

(** [VLANsManager.prototype.deleteVLAN] *)
Definition deleteVLAN (vlan : value) : M value :=
  id ← get vlan "id";
  params ← alloc (Obj (<["id" := id]> ∅));
  RegionConnection.callMethod "vlan.delete" [params; VBool true].

(** [VLANsManager.prototype.configureDHCP] *)
Definition configureDHCP (vlan controllers extra : value) : M value :=
  id ← get vlan "id";
  params ← alloc (Obj (<["id" := id]>
                      (<["controllers" := controllers]>
                      (<["extra" := extra]> ∅))));
  RegionConnection.callMethod "vlan.configure_dhcp" [params; VBool true].

(** [VLANsManager.prototype.disableDHCP] *)
Definition disableDHCP (vlan : value) : M value :=
  id ← get vlan "id";
  controllers ← alloc (Arr []);
  params ← alloc (Obj (<["id" := id]> (<["controllers" := controllers]> ∅)));
  RegionConnection.callMethod "vlan.configure_dhcp" [params; VBool true].

(** [VLANsManager.prototype.create] *)
Definition create (vlan : value) : M value :=
  RegionConnection.callMethod "vlan.create" [vlan].

(** [VLANsManager.prototype.addRackController].  (JavaScript finds the method
    [push] before it reads [rack.system_id]; both faults are a TypeError and
    nothing is written before either, so the order does not show.) *)
Definition addRackController (vlan rack : value) : M unit :=
  rack_sids ← get vlan "rack_sids";
  system_id ← get rack "system_id";
  push rack_sids system_id;;
  mret tt.

(** Modelled from the spec: [getItemFromList], which VLANsManager inherits
    from [Manager]. *)
Definition getItemFromList (pk : value) : M value :=
  Manager.getItemFromList vlans pk.

End VLANsManager.

(** ** Strings and numbers of the standard library of JavaScript *)

Module Std.

(** White space skipped by [parseInt] (the ASCII part of it). *)
Definition is_space (c : ascii) : bool :=
  let n := nat_of_ascii c in
  (n =? 32) || (n =? 9) || (n =? 10) || (n =? 11) || (n =? 12) || (n =? 13).

Fixpoint skip_space (s : string) : string :=
  match s with
  | String c s' => if is_space c then skip_space s' else s
  | EmptyString => EmptyString
  end.

Definition digit_of (c : ascii) : option Z :=
  let n := nat_of_ascii c in
  if (48 <=? n) && (n <=? 57) then Some (Z.of_nat (n - 48)) else None.

(** The value of the longest prefix of decimal digits, if there is one. *)
Fixpoint digits (s : string) (acc : option Z) : option Z :=
  match s with
  | String c s' =>
      match digit_of c with
      | Some d => digits s' (Some (10 * default 0%Z acc + d)%Z)
      | None => acc
      end
  | EmptyString => acc
  end.

(** [parseInt(v, 10)]: the argument is converted to a string, leading white
    space and one sign are skipped, and the digits that follow are read;
    NaN when there is none. *)
Definition parseInt (v : value) : value :=
  let s := skip_space (to_string v) in
  let '(negative, body) :=
    match s with
    | String "-" s' => (true, s')
    | String "+" s' => (false, s')
    | _ => (false, s)
    end in
  match digits body None with
  | Some n => VNum (if negative : bool then - n else n)
  | None => VNaN
  end.

(** [s.split(sep)[0]]: the part of [s] before the first [sep]. *)
Fixpoint before (sep : ascii) (s : string) : string :=
  match s with
  | String c s' => if Ascii.eqb c sep then EmptyString
                   else String c (before sep s')
  | EmptyString => EmptyString
  end.

(** [s.indexOf(c) === -1] *)
Fixpoint lacks (c : ascii) (s : string) : bool :=
  match s with
  | String c' s' => negb (Ascii.eqb c' c) && lacks c s'
  | EmptyString => true
  end.

(** [xs.indexOf(x)] on the elements of an array. *)
Fixpoint index_from (i : Z) (x : value) (xs : list value) : Z :=
  match xs with
  | y :: ys => if strict_eq y x then i else index_from (i + 1) x ys
  | [] => (-1)%Z
  end.

(** [v.indexOf(x)] in heap [h]: defined on arrays, and on strings for a
    string [x]; [None] is the TypeError of calling it on anything else. *)
Definition indexOf (h : list object) (v x : value) : option value :=
  match v with
  | VRef l =>
      match h !! l with
      | Some (Arr xs) => Some (VNum (index_from 0 x xs))
      | _ => None
      end
  | VStr s =>
      match String.index 0 (to_string x) s with
      | Some i => Some (VNum (Z.of_nat i))
      | None => Some (VNum (-1))
      end
  | _ => None
  end.

End Std.

(** [v.indexOf(x)] *)
Definition indexOf (v x : value) : M value := λ w,
  match Std.indexOf (heap w) v x with
  | Some i => (Returns i, w)
  | None => (Throws TypeError, w)
  end.

(** ** The other services injected into the controller *)

Module SubnetsManager.

(** Modelled from the spec: [SubnetsManager.getActiveItem], which is not among
    the sources.  A manager has at most one active item; this returns it. *)
Definition getActiveItem : M value := gets active.

(** Modelled from the spec: [SubnetsManager.setActiveItem(pk)], which is not
    among the sources: [setActiveItem(pk) -> promise<ManagedObject>]. *)
Definition setActiveItem (pk : value) : M value :=
  invoke "SubnetsManager.setActiveItem" [pk].

(** Modelled from the spec: [SubnetsManager.deleteSubnet(subnet)], which is
    not among the sources; a remote delete of the spec, returning a
    promise. *)
Definition deleteSubnet (subnet : value) : M value :=
  invoke "SubnetsManager.deleteSubnet" [subnet].

(** Modelled from the spec: [SubnetsManager.getItem(pk)], inherited from
    [Manager]. *)
Definition getItem (pk : value) : M value := Manager.getItem subnets pk.

End SubnetsManager.

Module IPRangesManager.

(** Modelled from the spec: [IPRangesManager.deleteItem(obj)], which is not
    among the sources: [deleteItem(obj) -> promise<void>]. *)
Definition deleteItem (obj : value) : M value :=
  invoke "IPRangesManager.deleteItem" [obj].

End IPRangesManager.

Module FabricsManager.

(** Modelled from the spec: [getItemFromList], which FabricsManager inherits
    from [Manager]. *)
Definition getItemFromList (pk : value) : M value :=
  Manager.getItemFromList fabrics pk.

End FabricsManager.

Module ManagerHelperService.

(** Modelled from the spec: [ManagerHelperService.loadManagers(managers)],
    which is not among the sources: [loadManagers([managers]) ->
    promise<void>]. *)
Definition loadManagers (managers : value) : M value :=
  invoke "ManagerHelperService.loadManagers" [managers].

End ManagerHelperService.

Module ErrorService.

(** [ErrorService.raiseError(v)], which is not among the sources: the error
    is recorded. *)
Definition raiseError (v : value) : M unit :=
  modify (λ w, set_raised (raised w ++ [v]) w).

End ErrorService.

(** ** SubnetDetailsController *)

(** Assignments to the members of [$scope]. *)

Definition upd_loaded (v : value) (s : Scope) : Scope :=
  MkScope v (subnet s) (reverse s) (newRange s) (editIPRange s)
          (deleteIPRange s) (predicate s) (error s) (confirmingDelete s)
          (ipVersion s).

Definition upd_subnet (v : value) (s : Scope) : Scope :=
  MkScope (loaded s) v (reverse s) (newRange s) (editIPRange s)
          (deleteIPRange s) (predicate s) (error s) (confirmingDelete s)
          (ipVersion s).

Definition upd_reverse (v : value) (s : Scope) : Scope :=
  MkScope (loaded s) (subnet s) v (newRange s) (editIPRange s)
          (deleteIPRange s) (predicate s) (error s) (confirmingDelete s)
          (ipVersion s).

Definition upd_newRange (v : value) (s : Scope) : Scope :=
  MkScope (loaded s) (subnet s) (reverse s) v (editIPRange s)
          (deleteIPRange s) (predicate s) (error s) (confirmingDelete s)
          (ipVersion s).

Definition upd_editIPRange (v : value) (s : Scope) : Scope :=
  MkScope (loaded s) (subnet s) (reverse s) (newRange s) v (deleteIPRange s)
          (predicate s) (error s) (confirmingDelete s) (ipVersion s).

Definition upd_deleteIPRange (v : value) (s : Scope) : Scope :=
  MkScope (loaded s) (subnet s) (reverse s) (newRange s) (editIPRange s) v
          (predicate s) (error s) (confirmingDelete s) (ipVersion s).

Definition upd_predicate (v : value) (s : Scope) : Scope :=
  MkScope (loaded s) (subnet s) (reverse s) (newRange s) (editIPRange s)
          (deleteIPRange s) v (error s) (confirmingDelete s) (ipVersion s).

Definition upd_error (v : value) (s : Scope) : Scope :=
  MkScope (loaded s) (subnet s) (reverse s) (newRange s) (editIPRange s)
          (deleteIPRange s) (predicate s) v (confirmingDelete s) (ipVersion s).

Definition upd_confirmingDelete (v : value) (s : Scope) : Scope :=
  MkScope (loaded s) (subnet s) (reverse s) (newRange s) (editIPRange s)
          (deleteIPRange s) (predicate s) (error s) v (ipVersion s).

Definition upd_ipVersion (v : value) (s : Scope) : Scope :=
  MkScope (loaded s) (subnet s) (reverse s) (newRange s) (editIPRange s)
          (deleteIPRange s) (predicate s) (error s) (confirmingDelete s) v.

Module SubnetDetailsController.
Section controller.

(** [ManagerHelperService.parseValidationError] is not among the sources:
    the controller is read for any function from errors to messages. *)
Variable parseValidationError : value → value.

(** [$scope.member] and [$scope.member = v] *)
Definition member (f : Scope → value) : M value := gets (λ w, f (scope w)).
Definition assign (f : value → Scope → Scope) (v : value) : M unit :=
  modify (λ w, set_scope (f v (scope w)) w).

(** [$scope.$watch(expression, l)] *)
Definition watch (expression : string) (l : listener) : M unit :=
  modify (λ w, set_watches (watches w ++ [(expression, l)]) w).

(** The two mappings of the controller.  The keys of an object literal are
    strings, and [o[k]] looks up the string of [k].  (What a plain object
    inherits is functions and objects, never a string, so reading an
    inherited member ends in the same branch as reading a missing one.) *)
Definition ALLOC_TYPES : gmap string value :=
  <["0" := VStr "Automatic"]> (<["1" := VStr "Static"]>
  (<["4" := VStr "User reserved"]> (<["5" := VStr "DHCP"]>
  (<["6" := VStr "Observed"]> ∅)))).

Definition NODE_TYPES : gmap string value :=
  <["0" := VStr "Machine"]> (<["1" := VStr "Device"]>
  (<["2" := VStr "Rack controller"]> (<["3" := VStr "Region controller"]>
  (<["4" := VStr "Rack and region controller"]> ∅)))).

Definition element (o : gmap string value) (k : value) : value :=
  default VUndefined (o !! to_string k).

(** [updateTitle].  (Its first statement assigns an undeclared variable
    [subnet], which nothing else reads.) *)
Definition updateTitle : M unit :=
  subnet ← member subnet;
  has_cidr ← (if truthy subnet then get subnet "cidr" else mret subnet);
  if truthy has_cidr then
    cidr ← get subnet "cidr";
    modify (set_title cidr);;
    name ← get subnet "name";
    differs ← (if truthy name then
                 cidr' ← get subnet "cidr";
                 name' ← get subnet "name";
                 mret (VBool (negb (strict_eq cidr' name')))
               else mret name);
    if truthy differs then
      name'' ← get subnet "name";
      modify (λ w, set_title
        (js_add (title w) (js_add (js_add (VStr " (") name'') (VStr ")"))) w)
    else mret tt
  else mret tt.

(** [updateIPVersion]: [split] is a method of strings only. *)
Definition updateIPVersion : M unit :=
  subnet ← member subnet;
  cidr ← get subnet "cidr";
  match cidr with
  | VStr s =>
      let ip := Std.before "/" s in
      if Std.lacks ":" ip then assign upd_ipVersion (VNum 4)
      else assign upd_ipVersion (VNum 6)
  | _ => throw TypeError
  end.

(** [$scope.getAllocType] *)
Definition getAllocType (allocType : value) : value :=
  let str := element ALLOC_TYPES allocType in
  if isString str then str else VStr "Unknown".

(** [$scope.allocTypeSort] *)
Definition allocTypeSort (ipAddress : value) : M value :=
  alloc_type ← get ipAddress "alloc_type";
  mret (getAllocType alloc_type).

(** [$scope.getNodeType] *)
Definition getNodeType (nodeType : value) : value :=
  let str := element NODE_TYPES nodeType in
  if isString str then str else VStr "Unknown".

(** [$scope.nodeTypeSort] *)
Definition nodeTypeSort (ipAddress : value) : M value :=
  node_summary ← get ipAddress "node_summary";
  node_type ← get node_summary "node_type";
  mret (getNodeType node_type).

(** [$scope.ownerSort] *)
Definition ownerSort (ipAddress : value) : M value :=
  owner ← get ipAddress "user";
  match owner with
  | VStr s => if (0 <? String.length s)%nat then mret owner
              else mret (VStr "MAAS")
  | _ => mret (VStr "MAAS")
  end.

(** [$scope.sortIPTable] *)
Definition sortIPTable (predicate : value) : M unit :=
  assign upd_predicate predicate;;
  reverse ← member reverse;
  assign upd_reverse (js_not reverse).

(** [$scope.getVLANName] *)
Definition getVLANName (vlan : value) : M value :=
  VLANsManager.getName vlan.

(** [$scope.deleteButton] *)
Definition deleteButton : M unit :=
  assign upd_error VNull;;
  assign upd_confirmingDelete (VBool true).

(** [$scope.cancelDeleteButton] *)
Definition cancelDeleteButton : M unit :=
  assign upd_confirmingDelete (VBool false).

(** [$scope.deleteConfirmButton]: the call, and the two functions handed to
    [then]. *)
Definition deleteConfirmButton : M unit :=
  subnet ← member subnet;
  promise ← SubnetsManager.deleteSubnet subnet;
  then_ promise OnSubnetDeleted.

Definition subnetDeleted (r : settlement) : M unit :=
  match r with
  | Resolved _ =>
      assign upd_confirmingDelete (VBool false);;
      modify (set_path (VStr "/networks"))
  | Rejected error =>
      assign upd_error (parseValidationError error)
  end.

(** [$scope.subnetPreSave] *)
Definition subnetPreSave (subnet changedFields : value) : M value :=
  index ← indexOf changedFields (VStr "fabric");
  (if negb (strict_eq index (VNum (-1))) then
     fabric ← get subnet "fabric";
     item ← FabricsManager.getItemFromList fabric;
     default_vlan_id ← get item "default_vlan_id";
     put subnet "vlan" default_vlan_id
   else mret tt);;
  mret subnet.

(** [$scope.addRange] *)
Definition addRange (type : value) : M unit :=
  subnet ← member subnet;
  id ← get subnet "id";
  range ← alloc (Obj (<["type" := type]> (<["subnet" := id]>
                     (<["start_ip" := VStr ""]> (<["end_ip" := VStr ""]>
                     (<["comment" := VStr ""]> ∅))))));
  assign upd_newRange range;;
  if strict_eq type (VStr "dynamic") then
    range' ← member newRange;
    put range' "comment" (VStr "Dynamic")
  else mret tt.

(** [$scope.cancelAddRange] *)
Definition cancelAddRange : M unit :=
  assign upd_newRange VNull.

(** [$scope.isIPRangeInEditMode] *)
Definition isIPRangeInEditMode (range : value) : M bool :=
  current ← member editIPRange;
  mret (strict_eq current range).

(** [$scope.ipRangeToggleEditMode] *)
Definition ipRangeToggleEditMode (range : value) : M unit :=
  assign upd_deleteIPRange VNull;;
  editing ← isIPRangeInEditMode range;
  if editing : bool then assign upd_editIPRange VNull
  else assign upd_editIPRange range.

(** [$scope.isIPRangeInDeleteMode] *)
Definition isIPRangeInDeleteMode (range : value) : M bool :=
  current ← member deleteIPRange;
  mret (strict_eq current range).

(** [$scope.ipRangeEnterDeleteMode] *)
Definition ipRangeEnterDeleteMode (range : value) : M unit :=
  assign upd_editIPRange VNull;;
  assign upd_deleteIPRange range.

(** [$scope.ipRangeCancelDelete] *)
Definition ipRangeCancelDelete : M unit :=
  assign upd_deleteIPRange VNull.

(** [$scope.ipRangeConfirmDelete]: the call, and the function handed to
    [then] (there is none for a failure). *)
Definition ipRangeConfirmDelete : M unit :=
  range ← member deleteIPRange;
  promise ← IPRangesManager.deleteItem range;
  then_ promise OnIPRangeDeleted.

Definition ipRangeDeleted (r : settlement) : M unit :=
  match r with
  | Resolved _ =>
      assign upd_deleteIPRange VNull;;
      subnet ← member subnet;
      id ← get subnet "id";
      item ← SubnetsManager.getItem id;
      assign upd_subnet item
  | Rejected _ => mret tt
  end.

(** [updateFabric], the listener [subnetLoaded] defines. *)
Definition updateFabric : M unit :=
  subnet ← member subnet;
  vlan ← get subnet "vlan";
  item ← VLANsManager.getItemFromList vlan;
  fabric ← get item "fabric";
  put subnet "fabric" fabric.

(** [subnetLoaded] *)
Definition subnetLoaded (subnet : value) : M unit :=
  assign upd_subnet subnet;;
  assign upd_loaded (VBool true);;
  updateTitle;;
  watch "subnet.fabric" UpdateFabric;;
  watch "subnet.vlan" UpdateFabric;;
  watch "subnet.cidr" UpdateIPVersion.

(** The function handed to [loadManagers(...).then]. *)
Definition managersLoaded : M unit :=
  activeSubnet ← SubnetsManager.getActiveItem;
  subnet_id ← gets subnet_id;  (* $routeParams.subnet_id *)
  let requestedSubnet := Std.parseInt subnet_id in
  if isNaN requestedSubnet then
    ErrorService.raiseError (VStr "Invalid subnet identifier.")
  else
    is_active ← (if isObject activeSubnet then
                   id ← get activeSubnet "id";
                   mret (strict_eq id requestedSubnet)
                 else mret false);
    if is_active : bool then
      subnetLoaded activeSubnet
    else
      promise ← SubnetsManager.setActiveItem requestedSubnet;
      then_ promise OnActiveItemSet.

(** The two functions handed to [setActiveItem(...).then]. *)
Definition activeItemSet (r : settlement) : M unit :=
  match r with
  | Resolved subnet => subnetLoaded subnet
  | Rejected error => ErrorService.raiseError error
  end.

(** The body of the controller, run once when the page is entered. *)
Definition controller : M unit :=
  modify (set_title (VStr "Loading..."));;
  modify (set_page (VStr "networks"));;
  assign upd_loaded (VBool false);;
  assign upd_subnet VNull;;
  assign upd_reverse (VBool false);;
  assign upd_newRange VNull;;
  assign upd_editIPRange VNull;;
  assign upd_deleteIPRange VNull;;
  assign upd_predicate (VFun "ipSort");;
  managers ← alloc (Arr [VService "SubnetsManager";
                         VService "IPRangesManager";
                         VService "SpacesManager";
                         VService "VLANsManager";
                         VService "UsersManager";
                         VService "FabricsManager"]);
  promise ← ManagerHelperService.loadManagers managers;
  then_ promise OnManagersLoaded.

(** *** The functions that ask ConverterService and UsersManager *)

(** [ConverterService.ipv4ToInteger] and [ConverterService.ipv6Expand] are
    not among the sources: they are read as any two functions of the
    address, which may throw. *)
Variable ipv4ToInteger ipv6Expand : value → outcome value.

(** [UsersManager.isSuperUser()] and [UsersManager.getAuthUser()] are not
    among the sources: they are read as any two computations. *)
Variable UsersManager_isSuperUser UsersManager_getAuthUser : M value.

(** [$scope.ipSort] *)
Definition ipSort (ipAddress : value) : M value :=
  ipVersion ← member ipVersion;
  if strict_eq ipVersion (VNum 4) then
    ip ← get ipAddress "ip";
    lift (ipv4ToInteger ip)
  else
    ip ← get ipAddress "ip";
    lift (ipv6Expand ip).

(** [$scope.isSuperUser] *)
Definition isSuperUser : M value := UsersManager_isSuperUser.

(** [$scope.ipRangeCanBeModified] *)
Definition ipRangeCanBeModified (range : value) : M value :=
  super ← isSuperUser;
  if truthy super then
    mret (VBool true)
  else
    type ← get range "type";
    if strict_eq type (VStr "reserved") then
      user ← get range "user";
      authUser ← UsersManager_getAuthUser;
      id ← get authUser "id";
      mret (VBool (strict_eq user id))
    else
      mret (VBool false).

(** *** The page as a transition system *)

(** What runs when a promise with continuation [cb] settles. *)
Definition continue (cb : callback) (r : settlement) : M unit :=
  match cb, r with
  | OnManagersLoaded, Resolved _ => managersLoaded
  | OnManagersLoaded, Rejected _ => mret tt
  | OnActiveItemSet, _ => activeItemSet r
  | OnSubnetDeleted, _ => subnetDeleted r
  | OnIPRangeDeleted, _ => ipRangeDeleted r
  end.

(** Promise [p] settles: its continuations run in the order they were
    attached, each one once.  A continuation that throws rejects the
    promise [then] returned, which nothing here observes. *)
Definition settle (p : nat) (r : settlement) : M unit := λ w,
  let mine := filter (λ t, t.1 = p) (thens w) in
  let others := filter (λ t, t.1 ≠ p) (thens w) in
  (Returns tt,
   foldl (λ w' t, exec (continue t.2 r) w') (set_thens others w) mine).

(** A listener of [$watch] fires. *)
Definition listen (l : listener) : M unit :=
  match l with
  | UpdateFabric => updateFabric
  | UpdateIPVersion => updateIPVersion
  end.

(** The events of the page: the template calls a function of the scope, a
    promise settles, or a watched expression changed. *)
Inductive event : Type :=
  | SortIPTable (predicate : value)
  | DeleteButton
  | CancelDeleteButton
  | DeleteConfirmButton
  | SubnetPreSave (subnet changedFields : value)
  | AddRange (type : value)
  | CancelAddRange
  | IPRangeToggleEditMode (range : value)
  | IPRangeEnterDeleteMode (range : value)
  | IPRangeCancelDelete
  | IPRangeConfirmDelete
  | Settles (p : nat) (r : settlement)
  | Fires (l : listener).

Definition handle (e : event) : world → world :=
  match e with
  | SortIPTable predicate => exec (sortIPTable predicate)
  | DeleteButton => exec deleteButton
  | CancelDeleteButton => exec cancelDeleteButton
  | DeleteConfirmButton => exec deleteConfirmButton
  | SubnetPreSave subnet changedFields =>
      exec (subnetPreSave subnet changedFields)
  | AddRange type => exec (addRange type)
  | CancelAddRange => exec cancelAddRange
  | IPRangeToggleEditMode range => exec (ipRangeToggleEditMode range)
  | IPRangeEnterDeleteMode range => exec (ipRangeEnterDeleteMode range)
  | IPRangeCancelDelete => exec ipRangeCancelDelete
  | IPRangeConfirmDelete => exec ipRangeConfirmDelete
  | Settles p r => exec (settle p r)
  | Fires l => exec (listen l)
  end.

(** The page after the controller has run in [w0] and the events [es] have
    been handled, first to last. *)
Definition after (es : list event) (w0 : world) : world :=
  foldl (λ w e, handle e w) (exec controller w0) es.

End controller.
End SubnetDetailsController.

(** ** The log rotation of the proxy (debian/maas-proxy.logrotate) *)

Module ProxyLogrotate.

(** What the [postrotate] script sees of the machine: which paths are
    executable files ([[ -x path ]]), which paths exist ([test -e path]), and
    the exit status of a command it runs. *)
Record machine : Type := Machine {
  executable : string → bool;
  present : string → bool;
  run : list string → Z;
}.

(** What the script did: the lines it echoed, the commands it ran, and its
    exit status. *)
Record outcome_of_script : Type := Done {
  echoed : list string;
  ran : list (list string);
  status : Z;
}.

(** The [postrotate] script of [/var/log/maas/proxy/*.log]. *)
Definition postrotate (m : machine) : outcome_of_script :=
  let SQUID :=
    if executable m "/usr/sbin/squid" then Some "/usr/sbin/squid"
    else if executable m "/usr/sbin/squid3" then Some "/usr/sbin/squid3"
    else None in
  match SQUID with
  | None => Done ["No squid binary found"] [] 1
  | Some squid =>
      if negb (present m "/var/run/maas-proxy.pid") then Done [] [] 0
      else
        let command :=
          [squid; "-f"; "/var/lib/maas/maas-proxy.conf"; "-k"; "rotate"] in
        Done [] [command] (run m command)
  end.

End ProxyLogrotate.

(** ** Vocabulary of the statements *)

(** The RPC method of a call of [RegionConnection.callMethod], and the
    params object it carries, read in the heap of [w]. *)
Definition method_of (c : call) : option string :=
  match target c, args c with
  | "RegionConnection.callMethod", VStr m :: _ => Some m
  | _, _ => None
  end.

Definition params_of (w : world) (c : call) : option (gmap string value) :=
  match args c with
  | _ :: VRef l :: _ =>
      match heap w !! l with
      | Some (Obj o) => Some o
      | _ => None
      end
  | _ => None
  end.

(** [v] is a plain object with the properties [o]. *)
Definition is_object (w : world) (v : value) (o : gmap string value) : Prop :=
  ∃ l, v = VRef l ∧ heap w !! l = Some (Obj o).

(** [o.k], [undefined] when [o] has no such property. *)
Definition prop (o : gmap string value) (k : string) : value :=
  default VUndefined (o !! k).

(** Every object of [w] is the same object in [w']. *)
Definition objects_kept (w w' : world) : Prop :=
  ∀ l o, heap w !! l = Some o → heap w' !! l = Some o.

(** No continuation waits on a promise that does not exist yet. *)
Definition promises_known (w : world) : Prop :=
  Forall (λ t : nat * callback, t.1 < length (calls w)) (thens w).

(** A computation keeps a property of the world, however it ends. *)
Definition preserves {A} (P : world → Prop) (m : M A) : Prop :=
  ∀ w, P w → P (exec m w).


(** At most one of [$scope.editIPRange] and [$scope.deleteIPRange] is not
    [null]. *)
Definition exclusive (w : world) : Prop :=
  editIPRange (scope w) = VNull ∨ deleteIPRange (scope w) = VNull.

(** [$scope.reverse] is a boolean. *)
Definition reverse_is_flag (w : world) : Prop :=
  ∃ b, reverse (scope w) = VBool b.

(** The integers that JavaScript numbers hold exactly and print as their
    decimal numeral: those up to [Number.MAX_SAFE_INTEGER] in size. *)
Definition safe_integer (n : Z) : Prop :=
  (-9007199254740991 ≤ n ≤ 9007199254740991)%Z.

(** The character occurs in the text. *)
Definition has_char (c : ascii) (s : string) : Prop :=
  In c (list_ascii_of_string s).

(** The values a missing or empty text can have: [undefined], [null] and
    the empty string. *)
Definition blank (v : value) : Prop :=
  v = VUndefined ∨ v = VNull ∨ v = VStr "".

(** The names of the allocation types and of the node types, by code. *)
Definition alloc_type_name (code : Z) : string :=
  match code with
  | 0 => "Automatic"
  | 1 => "Static"
  | 4 => "User reserved"
  | 5 => "DHCP"
  | 6 => "Observed"
  | _ => "Unknown"
  end%Z.

Definition node_type_name (code : Z) : string :=
  match code with
  | 0 => "Machine"
  | 1 => "Device"
  | 2 => "Rack controller"
  | 3 => "Region controller"
  | 4 => "Rack and region controller"
  | _ => "Unknown"
  end%Z.

(** A world for examples: the objects [h], VLANs [vl], fabrics [fa], the
    scope empty but for its subnet [s], and [sid] as route parameter. *)
Definition sample (h : list object) (vl fa : list value) (s sid : value)
  : world :=
  World h [] [] vl fa [] VNull
        (MkScope VUndefined s VUndefined VUndefined VUndefined VUndefined
                 VUndefined VUndefined VUndefined VUndefined)
        VUndefined VUndefined VUndefined [] [] sid.

(** A VLAN as the region sends it, for examples. *)
Definition vlan10 : gmap string value :=
  <["id" := VNum 7]> (<["vid" := VNum 10]> (<["name" := VStr "prod"]>
  (<["fabric" := VNum 3]> ∅))).

Definition one_vlan : world :=
  sample [Obj vlan10] [VRef 0] [] VNull VUndefined.

(** An error parser for examples: the error, as a string. *)
Definition error_text (error : value) : value := VStr (to_string error).

(** A subnet on VLAN 5 of fabric 3, for examples, on a page whose managers
    have VLAN 5 and fabric 3 ([a_subnet]) and on a page whose managers have
    not received them yet ([orphan_subnet]). *)
Definition subnet1 : gmap string value :=
  <["id" := VNum 1]> (<["cidr" := VStr "10.0.0.0/24"]>
  (<["vlan" := VNum 5]> (<["fabric" := VNum 3]> ∅))).

Definition vlan5 : gmap string value :=
  <["id" := VNum 5]> (<["vid" := VNum 0]> (<["fabric" := VNum 3]> ∅)).

Definition fabric3 : gmap string value :=
  <["id" := VNum 3]> (<["default_vlan_id" := VNum 5]> ∅).

Definition fields_with_fabric : object := Arr [VStr "name"; VStr "fabric"].

Definition a_subnet : world :=
  sample [Obj subnet1; Obj vlan5; Obj fabric3; fields_with_fabric]
         [VRef 1] [VRef 2] (VRef 0) (VStr "1").


(** The page of [a_subnet] when that subnet is the active item of
    SubnetsManager. *)
Definition active_subnet : world :=
  World (heap a_subnet) [] [] (vlans a_subnet) (fabrics a_subnet) [VRef 0]
        (VRef 0) (scope a_subnet) VUndefined VUndefined VUndefined [] []
        (VStr "1").

(** The first character of the text is one that [Std.digit_of] reads. *)
Definition reads_digit_first (s : string) : bool :=
  match s with
  | String c _ => bool_decide (is_Some (Std.digit_of c))
  | EmptyString => false
  end.

(** The text starts with a decimal digit, "0" to "9" (codes 48 to 57). *)
Definition starts_with_digit (s : string) : bool :=
  match s with
  | String c _ => (48 <=? nat_of_ascii c) && (nat_of_ascii c <=? 57)
  | EmptyString => false
  end.

(** An ASCII letter, "A" to "Z" or "a" to "z". *)
Definition is_letter (c : ascii) : bool :=
  ((65 <=? nat_of_ascii c) && (nat_of_ascii c <=? 90))
  || ((97 <=? nat_of_ascii c) && (nat_of_ascii c <=? 122)).

(** A route parameter that holds no number: it is missing, or empty, or a
    text that starts with a letter. *)
Definition no_numeral (v : value) : Prop :=
  v = VUndefined ∨ v = VStr "" ∨
  ∃ c s, v = VStr (String c s) ∧ is_letter c = true.

(** The active item of SubnetsManager is not the subnet [n]: there is none
    ([null] or [undefined]), or it is an object whose [id] is not the number
    [n]. *)
Definition other_active (w : world) (n : Z) : Prop :=
  (active w = VNull ∨ active w = VUndefined) ∨
  ∃ o, (∃ l, active w = VRef l ∧ heap w !! l = Some (Obj o)) ∧
       default VUndefined (o !! "id") ≠ VNum n.

(** [v] is [null] or [undefined]. *)
Definition nullish (v : value) : Prop := v = VNull ∨ v = VUndefined.

(** A VLAN served by the rack controller "abc", and the rack controller
    "xyz", for examples. *)
Definition racked_vlan : gmap string value :=
  <["id" := VNum 7]> (<["vid" := VNum 10]> (<["rack_sids" := VRef 1]> ∅)).

Definition rack_xyz : gmap string value := <["system_id" := VStr "xyz"]> ∅.

Definition one_rack : world :=
  sample [Obj racked_vlan; Arr [VStr "abc"]; Obj rack_xyz] [VRef 0] []
         VNull VUndefined.

(** A property of the page that no write to the objects, the calls, the
    continuations, the scope, the title, the location, the errors or the
    watchers can change: it speaks of the rest of the page only. *)
Definition untouched (P : world → Prop) : Prop :=
  (∀ x w, P w → P (set_heap x w)) ∧
  (∀ x w, P w → P (set_calls x w)) ∧
  (∀ x w, P w → P (set_thens x w)) ∧
  (∀ x w, P w → P (set_scope x w)) ∧
  (∀ x w, P w → P (set_title x w)) ∧
  (∀ x w, P w → P (set_path x w)) ∧
  (∀ x w, P w → P (set_raised x w)) ∧
  (∀ x w, P w → P (set_watches x w)).

(** The page has not been given its subnet: it still says "Loading...". *)
Definition loading (w : world) : Prop :=
  loaded (scope w) = VBool false ∧ subnet (scope w) = VNull ∧
  title w = VStr "Loading...".

(** The event is a promise settling. *)
Definition is_settlement (e : SubnetDetailsController.event) : Prop :=
  ∃ p r, e = SubnetDetailsController.Settles p r.

(** An IP address of the table, on the page of [subnet1], for examples. *)
Definition address7 : gmap string value :=
  <["ip" := VStr "10.0.0.7"]> (<["alloc_type" := VNum 4]>
  (<["user" := VStr "alice"]> ∅)).

Definition ip_table : world :=
  sample [Obj subnet1; Obj address7] [] [] (VRef 0) (VStr "1").

(** Converters for examples: the address, tagged with the converter. *)
Definition tagged (tag : string) (ip : value) : outcome value :=
  Returns (VStr (tag +:+ to_string ip)).

(** Users for examples: a user who is no super user, and nobody
    authenticated. *)
Definition plain_user : M value := mret (VBool false).
Definition nobody : M value := mret VNull.


Definition squid3_running : ProxyLogrotate.machine :=
  ProxyLogrotate.Machine (λ path, String.eqb path "/usr/sbin/squid3")
                         (λ _, true) (λ _, 0%Z).

(** ** Running computations *)

Lemma run_bind {A B} (m : M A) (f : A → M B) (w : world) :
  (m ≫= f) w = match m w with
               | (Returns a, w') => f a w'
               | (Throws e, w') => (Throws e, w')
               end.
Proof. reflexivity. Qed.

Lemma run_get (w : world) (v : value) (k : string) (x : value)
    {B} (f : value → M B) :
  read (heap w) v k = Some x → (get v k ≫= f) w = f x w.
Proof. intros H. rewrite run_bind. unfold get. by rewrite H. Qed.

Lemma run_get_fault (w : world) (v : value) (k : string)
    {B} (f : value → M B) :
  read (heap w) v k = None → (get v k ≫= f) w = (Throws TypeError, w).
Proof. intros H. rewrite run_bind. unfold get. by rewrite H. Qed.

Lemma read_object (w : world) (v : value) (o : gmap string value)
    (k : string) :
  is_object w v o → read (heap w) v k = Some (prop o k).
Proof. intros (l & -> & H). unfold read. by rewrite H. Qed.

Lemma run_alloc (w : world) (o : object) {B} (f : value → M B) :
  (alloc o ≫= f) w = f (VRef (length (heap w))) (set_heap (heap w ++ [o]) w).
Proof. reflexivity. Qed.

Lemma lookup_fresh (h : list object) (o : object) :
  (h ++ [o]) !! length h = Some o.
Proof. by rewrite lookup_app_r, Nat.sub_diag. Qed.

Lemma params_of_call (w : world) (f : string) (m : value) (l : loc)
    (rest : list value) (o : gmap string value) :
  heap w !! l = Some (Obj o) →
  params_of w (Call f (m :: VRef l :: rest)) = Some o.
Proof. intros H. unfold params_of. cbn [args]. by rewrite H. Qed.

Lemma objects_kept_app (w w' : world) (os : list object) :
  heap w' = heap w ++ os → objects_kept w w'.
Proof. intros E l o H. rewrite E. by apply lookup_app_l_Some. Qed.

Lemma strict_eq_true (a b : value) :
  strict_eq a b = true ↔ a = b ∧ a ≠ VNaN.
Proof.
  unfold strict_eq. destruct a; rewrite ?bool_decide_eq_true;
    intuition congruence.
Qed.

Lemma strict_eq_false (a b : value) : a ≠ b → strict_eq a b = false.
Proof.
  intros H. destruct (strict_eq a b) eqn:E; [|done].
  apply strict_eq_true in E. by destruct E.
Qed.

(** ** VLANsManager *)

Section vlans_manager.

Import VLANsManager.

Lemma getName_run (w : world) (vlan : value) (o : gmap string value) :
  is_object w vlan o →
  getName vlan w =
    (Returns
       (if strict_eq (prop o "vid") (VNum 0) then VStr "untagged"
        else if isString (prop o "name")
                && negb (strict_eq (prop o "name") (VStr ""))
             then js_add (prop o "vid")
                    (js_add (js_add (VStr " (") (prop o "name")) (VStr ")"))
             else prop o "vid"), w).
Proof.
  intros H. unfold getName.
  rewrite !(run_get w vlan "vid" (prop o "vid")) by by apply read_object.
  destruct (strict_eq (prop o "vid") (VNum 0)); [done|].
  rewrite (run_get w vlan "name" (prop o "name")) by by apply read_object.
  destruct (isString (prop o "name") && _); [|done].
  by rewrite (run_get w vlan "name" (prop o "name")) by by apply read_object.
Qed.

(** C9.  For a VLAN object, [getName] returns "untagged" whenever
    [vlan.vid === 0], whatever [vlan.name] is.  Otherwise, when [vlan.name]
    is a string that is not empty, it returns [vlan.vid] followed by the name
    in parentheses: for a [vid] that is a number [n] (an integer JavaScript
    holds exactly), the numeral of [n], a blank, and the name between "(" and
    ")"; for a [vid] that is a string, that string followed by the same.
    When [vlan.name] is not such a string, it returns [vlan.vid] itself.  The
    call changes nothing. *)
Theorem getName_cases (w : world) (vlan : value) (o : gmap string value)
    (Hvlan : is_object w vlan o) :
  exec (getName vlan) w = w ∧
  (prop o "vid" = VNum 0 →
     result (getName vlan) w = Returns (VStr "untagged")) ∧
  (∀ n s, prop o "vid" = VNum n → n ≠ 0%Z → safe_integer n →
          prop o "name" = VStr s → s ≠ "" →
     result (getName vlan) w
     = Returns (VStr (pretty n +:+ " (" +:+ s +:+ ")"))) ∧
  (∀ v s, prop o "vid" = VStr v →
          prop o "name" = VStr s → s ≠ "" →
     result (getName vlan) w = Returns (VStr (v +:+ " (" +:+ s +:+ ")"))) ∧
  (prop o "vid" ≠ VNum 0 →
     (∀ s, prop o "name" = VStr s → s = "") →
       result (getName vlan) w = Returns (prop o "vid")).
Proof.
  unfold exec, result. rewrite (getName_run w vlan o Hvlan). cbn [fst snd].
  split; [done|]. split; [|split; [|split]].
  - intros ->. done.
  - intros n s Hvid Hn _ Hname Hs. rewrite Hvid, Hname.
    rewrite (strict_eq_false (VNum n)) by congruence. cbn [isString andb].
    rewrite strict_eq_false by congruence. done.
  - intros v s Hvid Hname Hs. rewrite Hvid, Hname.
    rewrite (strict_eq_false (VStr v)) by congruence. cbn [isString andb].
    rewrite strict_eq_false by congruence. done.
  - intros Hvid Hname. rewrite (strict_eq_false _ _ Hvid).
    destruct (prop o "name") as [| | | | |s| | | |]; try done.
    by rewrite (Hname s eq_refl).
Qed.

Lemma getName_cases_witness :
  result (getName (VRef 0)) one_vlan = Returns (VStr "10 (prod)").
Proof.
  destruct (getName_cases one_vlan (VRef 0) vlan10
              (ex_intro _ 0 (conj eq_refl eq_refl))) as (_ & _ & H & _).
  apply (H 10%Z "prod"); [reflexivity | lia | unfold safe_integer; lia
                         | reflexivity | discriminate].
Defined.

(** The name of VLAN 10 called "prod", and of the untagged VLAN of any
    name. *)
Example getName_tagged :
  result (getName (VRef 0)) one_vlan = Returns (VStr "10 (prod)").
Proof. vm_compute. reflexivity. Qed.

Lemma create_run (w : world) (vlan : value) :
  create vlan w =
    (Returns (VPromise (length (calls w))),
     set_calls (calls w ++ [Call "RegionConnection.callMethod"
                                 [VStr "vlan.create"; vlan]]) w).
Proof. reflexivity. Qed.

(** C1.  [create(vlan)] sends the method ["vlan.create"] with the vlan itself
    as params and returns the promise of that call.  The call leaves the
    cached collection and every object as they were, and attaches no
    continuation to the promise: nothing is inserted from the response. *)
Theorem create_sends_and_keeps_cache (w : world) (vlan : value) :
  let w' := exec (create vlan) w in
  result (create vlan) w = Returns (VPromise (length (calls w))) ∧
  calls w' = calls w ++ [Call "RegionConnection.callMethod"
                              [VStr "vlan.create"; vlan]] ∧
  vlans w' = vlans w ∧
  heap w' = heap w ∧
  thens w' = thens w.
Proof. unfold exec, result. rewrite create_run. done. Qed.

Lemma deleteVLAN_run (w : world) (vlan : value) (o : gmap string value) :
  is_object w vlan o →
  deleteVLAN vlan w =
    (Returns (VPromise (length (calls w))),
     set_calls (calls w ++ [Call "RegionConnection.callMethod"
                                 [VStr "vlan.delete"; VRef (length (heap w));
                                  VBool true]])
       (set_heap (heap w ++ [Obj (<["id" := prop o "id"]> ∅)]) w)).
Proof.
  intros H. unfold deleteVLAN.
  rewrite (run_get w vlan "id" (prop o "id")) by by apply read_object.
  by rewrite run_alloc.
Qed.

(** C3.  For a VLAN object, [deleteVLAN] sends the method ["vlan.delete"]
    with a params object whose only key is [id], bound to [vlan.id], and
    returns the promise of that call.  It removes nothing from the cached
    collection, changes no object, and attaches no continuation to the
    promise. *)
Theorem deleteVLAN_sends_id_only (w : world) (vlan : value)
    (o : gmap string value) (Hvlan : is_object w vlan o) :
  let w' := exec (deleteVLAN vlan) w in
  ∃ c, calls w' = calls w ++ [c] ∧
       result (deleteVLAN vlan) w = Returns (VPromise (length (calls w))) ∧
       method_of c = Some "vlan.delete" ∧
       params_of w' c = Some {["id" := prop o "id"]} ∧
       vlans w' = vlans w ∧
       objects_kept w w' ∧
       thens w' = thens w.
Proof.
  unfold exec, result. rewrite (deleteVLAN_run w vlan o Hvlan). cbn [fst snd].
  eexists. split; [reflexivity|]. split; [done|]. split; [done|].
  split; [|split; [done|split; [|done]]].
  - rewrite insert_empty. apply params_of_call. apply lookup_fresh.
  - by eapply objects_kept_app.
Qed.

Lemma deleteVLAN_sends_id_only_witness :
  let w' := exec (deleteVLAN (VRef 0)) one_vlan in
  ∃ c, calls w' = calls one_vlan ++ [c] ∧
       result (deleteVLAN (VRef 0)) one_vlan =
         Returns (VPromise (length (calls one_vlan))) ∧
       method_of c = Some "vlan.delete" ∧
       params_of w' c = Some {["id" := prop vlan10 "id"]} ∧
       vlans w' = vlans one_vlan ∧
       objects_kept one_vlan w' ∧
       thens w' = thens one_vlan.
Proof.
  apply (deleteVLAN_sends_id_only one_vlan (VRef 0) vlan10).
  exists 0. split; reflexivity.
Defined.

Lemma configureDHCP_run (w : world) (vlan controllers extra : value)
    (o : gmap string value) :
  is_object w vlan o →
  configureDHCP vlan controllers extra w =
    (Returns (VPromise (length (calls w))),
     set_calls (calls w ++ [Call "RegionConnection.callMethod"
                                 [VStr "vlan.configure_dhcp";
                                  VRef (length (heap w)); VBool true]])
       (set_heap (heap w ++ [Obj (<["id" := prop o "id"]>
                                  (<["controllers" := controllers]>
                                  (<["extra" := extra]> ∅)))]) w)).
Proof.
  intros H. unfold configureDHCP.
  rewrite (run_get w vlan "id" (prop o "id")) by by apply read_object.
  by rewrite run_alloc.
Qed.

Lemma disableDHCP_run (w : world) (vlan : value) (o : gmap string value) :
  is_object w vlan o →
  disableDHCP vlan w =
    (Returns (VPromise (length (calls w))),
     set_calls (calls w ++ [Call "RegionConnection.callMethod"
                                 [VStr "vlan.configure_dhcp";
                                  VRef (S (length (heap w))); VBool true]])
       (set_heap ((heap w ++ [Arr []]) ++
                  [Obj (<["id" := prop o "id"]>
                       (<["controllers" := VRef (length (heap w))]> ∅))]) w)).
Proof.
  intros H. unfold disableDHCP.
  rewrite (run_get w vlan "id" (prop o "id")) by by apply read_object.
  rewrite !run_alloc. unfold RegionConnection.callMethod, invoke.
  cbn [heap set_heap calls]. by rewrite length_app, Nat.add_1_r.
Qed.

(** C2, as the code has it.  For a VLAN object, each of [configureDHCP] and
    [disableDHCP] sends one call of "vlan.configure_dhcp", with a params
    object whose [id] is [vlan.id].  Through [configureDHCP] the params have
    exactly the keys [id], [controllers] and [extra], bound to [vlan.id] and
    to the two arguments.  Through [disableDHCP] they have exactly the keys
    [id] and [controllers], and [controllers] is the empty list: an array
    with no element, which the call creates (no object of the page before the
    call). *)
Theorem configure_dhcp_params (w : world) (vlan controllers extra : value)
    (o : gmap string value) (Hvlan : is_object w vlan o) :
  (let w' := exec (configureDHCP vlan controllers extra) w in
   ∃ c p, calls w' = calls w ++ [c] ∧
          method_of c = Some "vlan.configure_dhcp" ∧
          params_of w' c = Some p ∧
          dom p = {["id"; "controllers"; "extra"]} ∧
          p !! "id" = Some (prop o "id") ∧
          p !! "controllers" = Some controllers ∧
          p !! "extra" = Some extra) ∧
  (let w' := exec (disableDHCP vlan) w in
   ∃ c p a, calls w' = calls w ++ [c] ∧
            method_of c = Some "vlan.configure_dhcp" ∧
            params_of w' c = Some p ∧
            dom p = {["id"; "controllers"]} ∧
            p !! "id" = Some (prop o "id") ∧
            p !! "controllers" = Some (VRef a) ∧
            heap w' !! a = Some (Arr []) ∧
            heap w !! a = None).
Proof.
  unfold exec. rewrite (configureDHCP_run w vlan controllers extra o Hvlan).
  rewrite (disableDHCP_run w vlan o Hvlan). cbn [snd]. split.
  - eexists _, _. split; [reflexivity|]. split; [done|]. split.
    { apply params_of_call. apply lookup_fresh. }
    split; [|by simplify_map_eq].
    rewrite !dom_insert_L, dom_empty_L.
    by rewrite (right_id_L ∅ (∪)), !(assoc_L (∪)).
  - eexists _, _, (length (heap w)). split; [reflexivity|]. split; [done|].
    split.
    { apply params_of_call. cbn [heap set_calls set_heap].
      replace (S (length (heap w))) with (length (heap w ++ [Arr []]))
        by (rewrite length_app; cbn; lia).
      apply lookup_fresh. }
    split; [|split; [by simplify_map_eq|split; [by simplify_map_eq|]]].
    + rewrite !dom_insert_L, dom_empty_L. by rewrite (right_id_L ∅ (∪)).
    + cbn [heap set_calls set_heap]. split.
      * rewrite lookup_app_l by (rewrite length_app; cbn; lia).
        apply lookup_fresh.
      * by apply lookup_ge_None_2.
Qed.

Lemma configure_dhcp_params_witness :
  (let w' := exec (configureDHCP (VRef 0) VNull VUndefined) one_vlan in
   ∃ c p, calls w' = calls one_vlan ++ [c] ∧
          method_of c = Some "vlan.configure_dhcp" ∧
          params_of w' c = Some p ∧
          dom p = {["id"; "controllers"; "extra"]} ∧
          p !! "id" = Some (prop vlan10 "id") ∧
          p !! "controllers" = Some VNull ∧
          p !! "extra" = Some VUndefined) ∧
  (let w' := exec (disableDHCP (VRef 0)) one_vlan in
   ∃ c p a, calls w' = calls one_vlan ++ [c] ∧
            method_of c = Some "vlan.configure_dhcp" ∧
            params_of w' c = Some p ∧
            dom p = {["id"; "controllers"]} ∧
            p !! "id" = Some (prop vlan10 "id") ∧
            p !! "controllers" = Some (VRef a) ∧
            heap w' !! a = Some (Arr []) ∧
            heap one_vlan !! a = None).
Proof.
  apply (configure_dhcp_params one_vlan (VRef 0) VNull VUndefined vlan10).
  exists 0. split; reflexivity.
Defined.

(** C2 as stated fails on [disableDHCP]: on the VLAN with id 7 it sends
    ["vlan.configure_dhcp"] with a params object that has the keys [id] and
    [controllers] and no key [extra]. *)
Lemma disableDHCP_params_without_extra :
  let w' := exec (disableDHCP (VRef 0)) one_vlan in
  ∃ c p, calls w' = [c] ∧
         method_of c = Some "vlan.configure_dhcp" ∧
         params_of w' c = Some p ∧
         p !! "extra" = None ∧
         dom p ≠ {["id"; "controllers"; "extra"]}.
Proof.
  exists (Call "RegionConnection.callMethod"
            [VStr "vlan.configure_dhcp"; VRef 2; VBool true]),
         (<["id" := VNum 7]> (<["controllers" := VRef 1]> ∅)).
  split; [reflexivity|]. split; [reflexivity|].
  split; [by vm_compute|]. split; [reflexivity|].
  intros E.
  assert (H : "extra" ∈ dom (<["id" := VNum 7]>
                (<["controllers" := VRef 1]> (∅ : gmap string value)))).
  { rewrite E. rewrite !elem_of_union, !elem_of_singleton. tauto. }
  apply elem_of_dom in H. destruct H as [x H]. by simplify_map_eq.
Qed.

End vlans_manager.

(** ** What a computation leaves alone *)

Section frames.

Context {P : world → Prop}.

Lemma preserves_ret {A} (a : A) : preserves P (mret a).
Proof. by intros w H. Qed.

Lemma preserves_throw {A} (e : exn) : preserves P (@throw A e).
Proof. by intros w H. Qed.

Lemma preserves_gets {A} (f : world → A) : preserves P (gets f).
Proof. by intros w H. Qed.

Lemma preserves_get (v : value) (k : string) : preserves P (get v k).
Proof. intros w H. unfold exec, get. by destruct (read _ _ _). Qed.

Lemma preserves_indexOf (v x : value) : preserves P (indexOf v x).
Proof. intros w H. unfold exec, indexOf. by destruct (Std.indexOf _ _ _). Qed.

Lemma preserves_bind {A B} (m : M A) (f : A → M B) :
  preserves P m → (∀ a, preserves P (f a)) → preserves P (m ≫= f).
Proof.
  intros Hm Hf w H. specialize (Hm w H). unfold exec in *.
  rewrite run_bind. destruct (m w) as [[a|e] w']; [|done].
  by apply Hf.
Qed.

Lemma preserves_modify (f : world → world) :
  (∀ w, P w → P (f w)) → preserves P (modify f).
Proof. intros Hf w H. by apply Hf. Qed.

Lemma preserves_put (v : value) (k : string) (x : value) :
  (∀ h w, P w → P (set_heap h w)) → preserves P (put v k x).
Proof.
  intros Hh w H. unfold exec, put. destruct (write _ _ _ _); [|done].
  by apply Hh.
Qed.

Lemma preserves_alloc (o : object) :
  (∀ h w, P w → P (set_heap h w)) → preserves P (alloc o).
Proof. intros Hh w H. by apply Hh. Qed.

Lemma preserves_invoke (f : string) (xs : list value) :
  (∀ c w, P w → P (set_calls c w)) → preserves P (invoke f xs).
Proof. intros Hc w H. by apply Hc. Qed.

Lemma preserves_then (p : value) (cb : callback) :
  (∀ t w, P w → P (set_thens t w)) → preserves P (then_ p cb).
Proof. intros Ht w H. unfold exec, then_. destruct p; try done. by apply Ht. Qed.

Lemma preserves_foldl {A} (f : A → M unit) (xs : list A) (w : world) :
  (∀ a, preserves P (f a)) → P w → P (foldl (λ w' a, exec (f a) w') w xs).
Proof.
  intros Hf. revert w. induction xs as [|x xs IH]; intros w H; [done|].
  cbn. apply IH. by apply Hf.
Qed.

End frames.

(** Walks through a computation and leaves the writes that matter. *)
Ltac frame_step :=
  first
    [ apply preserves_ret
    | apply preserves_throw
    | apply preserves_gets
    | apply preserves_get
    | apply preserves_indexOf
    | apply preserves_bind; [|intros ?]
    | apply preserves_put; intros ? ? ?; assumption
    | apply preserves_alloc; intros ? ? ?; assumption
    | apply preserves_invoke; intros ? ? ?; assumption
    | apply preserves_then; intros ? ? ?; assumption
    | apply preserves_modify; intros ? ?; assumption
    | match goal with
      | |- preserves _ (if ?b then _ else _) => destruct b
      | |- preserves _ (match ?v with _ => _ end) => destruct v
      end ].

Ltac frame := repeat frame_step.

(** The functions of the controller, opened up to the reads, writes and
    calls they are made of. *)
Ltac open_controller :=
  unfold SubnetDetailsController.sortIPTable,
    SubnetDetailsController.deleteButton,
    SubnetDetailsController.cancelDeleteButton,
    SubnetDetailsController.deleteConfirmButton,
    SubnetDetailsController.subnetDeleted,
    SubnetDetailsController.subnetPreSave,
    SubnetDetailsController.addRange,
    SubnetDetailsController.cancelAddRange,
    SubnetDetailsController.ipRangeToggleEditMode,
    SubnetDetailsController.isIPRangeInEditMode,
    SubnetDetailsController.ipRangeEnterDeleteMode,
    SubnetDetailsController.ipRangeCancelDelete,
    SubnetDetailsController.ipRangeConfirmDelete,
    SubnetDetailsController.ipRangeDeleted,
    SubnetDetailsController.updateFabric,
    SubnetDetailsController.updateIPVersion,
    SubnetDetailsController.managersLoaded,
    SubnetDetailsController.activeItemSet,
    SubnetDetailsController.subnetLoaded,
    SubnetDetailsController.updateTitle,
    SubnetDetailsController.controller,
    SubnetDetailsController.watch,
    SubnetDetailsController.member,
    SubnetDetailsController.assign,
    SubnetsManager.getActiveItem, SubnetsManager.setActiveItem,
    SubnetsManager.deleteSubnet, SubnetsManager.getItem,
    IPRangesManager.deleteItem, FabricsManager.getItemFromList,
    VLANsManager.getItemFromList, ManagerHelperService.loadManagers,
    ErrorService.raiseError, Manager.getItem, Manager.getItemFromList.

Ltac controller_frame := open_controller; frame.

(** ** SubnetDetailsController: the names of the type codes *)

Section type_names.

Import SubnetDetailsController.

(** A value whose string is not a key of the mapping has no name in it,
    whatever kind of value it is. *)
Lemma getAllocType_other (v : value) :
  to_string v ∉ ["0"; "1"; "4"; "5"; "6"] →
  getAllocType v = VStr "Unknown".
Proof.
  rewrite !not_elem_of_cons. intros (H0 & H1 & H4 & H5 & H6 & _).
  unfold getAllocType, element, ALLOC_TYPES.
  by rewrite !lookup_insert_ne, lookup_empty.
Qed.

Lemma getNodeType_other (v : value) :
  to_string v ∉ ["0"; "1"; "2"; "3"; "4"] →
  getNodeType v = VStr "Unknown".
Proof.
  rewrite !not_elem_of_cons. intros (H0 & H1 & H2 & H3 & H4 & _).
  unfold getNodeType, element, NODE_TYPES.
  by rewrite !lookup_insert_ne, lookup_empty.
Qed.

(** The numeral of an integer is a key only for the integer of that key. *)
Lemma numeral_among (n : Z) (ks : list Z) :
  n ∉ ks → to_string (VNum n) ∉ (pretty <$> ks).
Proof.
  intros H Hin. apply list_elem_of_fmap in Hin as (k & E & Hk).
  cbn [to_string] in E. apply (inj pretty) in E. by subst.
Qed.

Lemma getAllocType_unknown (n : Z) :
  n ∉ [0; 1; 4; 5; 6]%Z → getAllocType (VNum n) = VStr "Unknown".
Proof.
  intros H. apply getAllocType_other. by apply (numeral_among n) in H.
Qed.

Lemma getNodeType_unknown (n : Z) :
  n ∉ [0; 1; 2; 3; 4]%Z → getNodeType (VNum n) = VStr "Unknown".
Proof.
  intros H. apply getNodeType_other. by apply (numeral_among n) in H.
Qed.

(** C6.  Outside the codes 0, 1, 4, 5 and 6 [getAllocType] returns
    ["Unknown"], and outside the codes 0 to 4 [getNodeType] returns
    ["Unknown"]; on the codes themselves each returns the name the mapping
    gives. *)
Theorem type_names_or_unknown (n : Z) :
  (n ∉ [0; 1; 4; 5; 6]%Z → getAllocType (VNum n) = VStr "Unknown") ∧
  (n ∉ [0; 1; 2; 3; 4]%Z → getNodeType (VNum n) = VStr "Unknown") ∧
  (getAllocType (VNum 0) = VStr "Automatic" ∧
   getAllocType (VNum 1) = VStr "Static" ∧
   getAllocType (VNum 4) = VStr "User reserved" ∧
   getAllocType (VNum 5) = VStr "DHCP" ∧
   getAllocType (VNum 6) = VStr "Observed") ∧
  (getNodeType (VNum 0) = VStr "Machine" ∧
   getNodeType (VNum 1) = VStr "Device" ∧
   getNodeType (VNum 2) = VStr "Rack controller" ∧
   getNodeType (VNum 3) = VStr "Region controller" ∧
   getNodeType (VNum 4) = VStr "Rack and region controller").
Proof.
  split; [apply getAllocType_unknown|]. split; [apply getNodeType_unknown|].
  split; repeat split; by vm_compute.
Qed.

Lemma type_names_or_unknown_witness :
  getAllocType (VNum 2) = VStr "Unknown" ∧
  getNodeType (VNum 7) = VStr "Unknown".
Proof.
  split.
  - apply (type_names_or_unknown 2).
    rewrite !not_elem_of_cons. repeat split; try done. apply not_elem_of_nil.
  - apply (type_names_or_unknown 7).
    rewrite !not_elem_of_cons. repeat split; try done. apply not_elem_of_nil.
Defined.

End type_names.


(** ** SubnetDetailsController: the state of the scope *)

Section scope_state.

Import SubnetDetailsController.

Variable parseValidationError : value → value.

Ltac run := unfold mbind, M_bind, mret, M_ret, gets, modify, throw.

Lemma sortIPTable_run (p : value) (w : world) :
  sortIPTable p w =
    (Returns tt,
     set_scope (upd_reverse (js_not (reverse (scope w)))
                  (upd_predicate p (scope w))) w).
Proof. reflexivity. Qed.

Lemma ipRangeToggleEditMode_run (range : value) (w : world) :
  ipRangeToggleEditMode range w =
    (Returns tt,
     set_scope (upd_editIPRange
                  (if strict_eq (editIPRange (scope w)) range then VNull
                   else range)
                  (upd_deleteIPRange VNull (scope w))) w).
Proof.
  unfold ipRangeToggleEditMode, isIPRangeInEditMode, member, assign. run.
  cbn. by destruct (strict_eq (editIPRange (scope w)) range).
Qed.

Lemma ipRangeEnterDeleteMode_run (range : value) (w : world) :
  ipRangeEnterDeleteMode range w =
    (Returns tt,
     set_scope (upd_deleteIPRange range (upd_editIPRange VNull (scope w))) w).
Proof. reflexivity. Qed.

Lemma ipRangeCancelDelete_run (w : world) :
  ipRangeCancelDelete w =
    (Returns tt, set_scope (upd_deleteIPRange VNull (scope w)) w).
Proof. reflexivity. Qed.

(** *** At most one of the two IP range modes *)

Lemma continue_exclusive (cb : callback) (r : settlement) :
  preserves exclusive (continue parseValidationError cb r).
Proof.
  destruct cb, r; unfold continue; controller_frame.
  all: apply preserves_modify; intros w [H|H]; [by left|by right].
Qed.

Lemma settle_preserves (P : world → Prop) (p : nat) (r : settlement) :
  (∀ t w, P w → P (set_thens t w)) →
  (∀ cb, preserves P (continue parseValidationError cb r)) →
  preserves P (settle parseValidationError p r).
Proof.
  intros Ht Hc w H. unfold exec, settle. cbn [snd].
  apply (preserves_foldl
           (λ t : nat * callback, continue parseValidationError t.2 r)).
  - intros t. apply Hc.
  - by apply Ht.
Qed.

Lemma toggle_exclusive (range : value) (w : world) :
  exclusive (exec (ipRangeToggleEditMode range) w).
Proof. unfold exec. rewrite ipRangeToggleEditMode_run. by right. Qed.

Lemma enter_delete_exclusive (range : value) (w : world) :
  exclusive (exec (ipRangeEnterDeleteMode range) w).
Proof. by left. Qed.

Lemma cancel_delete_exclusive (w : world) :
  exclusive (exec ipRangeCancelDelete w).
Proof. by right. Qed.

Lemma controller_starts_null (w0 : world) :
  editIPRange (scope (exec controller w0)) = VNull ∧
  deleteIPRange (scope (exec controller w0)) = VNull.
Proof. done. Qed.

Lemma handle_exclusive (e : event) (w : world) :
  exclusive w → exclusive (handle parseValidationError e w).
Proof.
  revert w. destruct e; unfold handle;
    try (intros w _;
         first [apply toggle_exclusive | apply enter_delete_exclusive
               | apply cancel_delete_exclusive]);
    match goal with
    | |- ∀ w, exclusive w → exclusive (exec ?m w) =>
        change (preserves exclusive m)
    end.
  9: { apply settle_preserves; [done|]. intros cb. apply continue_exclusive. }
  9: destruct l; unfold listen.
  all: controller_frame.
  all: apply preserves_modify; intros w [H|H]; [by left|by right].
Qed.

(** The controller leaves both modes [null], and no event of the page brings
    the scope to a state with both modes set. *)
Lemma after_exclusive (es : list event) (w0 : world) :
  exclusive (after parseValidationError es w0).
Proof.
  unfold after.
  assert (H : exclusive (exec controller w0)) by by left.
  revert H. generalize (exec controller w0).
  induction es as [|e es IH]; intros w H; [done|].
  cbn. apply IH. by apply handle_exclusive.
Qed.

(** *** The direction of the sort *)

Lemma continue_reverse_is_flag (cb : callback) (r : settlement) :
  preserves reverse_is_flag (continue parseValidationError cb r).
Proof. destruct cb, r; unfold continue; controller_frame. Qed.

Lemma handle_reverse_is_flag (e : event) (w : world) :
  reverse_is_flag w → reverse_is_flag (handle parseValidationError e w).
Proof.
  revert w. destruct e; unfold handle;
    match goal with
    | |- ∀ w, reverse_is_flag w → reverse_is_flag (exec ?m w) =>
        change (preserves reverse_is_flag m)
    end.
  12: { apply settle_preserves; [done|].
        intros cb. apply continue_reverse_is_flag. }
  12: destruct l; unfold listen.
  all: controller_frame.
  apply preserves_modify. intros w _. by eexists.
Qed.

Lemma after_reverse_is_flag (es : list event) (w0 : world) :
  reverse_is_flag (after parseValidationError es w0).
Proof.
  unfold after.
  assert (H : reverse_is_flag (exec controller w0)) by by exists false.
  revert H. generalize (exec controller w0).
  induction es as [|e es IH]; intros w H; [done|].
  cbn. apply IH. by apply handle_reverse_is_flag.
Qed.

Lemma js_not_involutive (b : bool) : js_not (js_not (VBool b)) = VBool b.
Proof. by destruct b. Qed.

(** C10.  [sortIPTable(p)] sets [$scope.predicate] to [p] and negates
    [$scope.reverse]: a flag that is [false] becomes [true] and a flag that
    is [true] becomes [false].  In every state of the page (the controller
    has run and any events have been handled) [$scope.reverse] is such a
    flag, one call flips it and a second call with the same predicate puts
    it back, with [$scope.predicate] equal to [p] after each call. *)
Theorem sortIPTable_twice (p : value) :
  (∀ w b, reverse (scope w) = VBool b →
          let w' := exec (sortIPTable p) w in
          predicate (scope w') = p ∧
          reverse (scope w') = VBool (negb b)) ∧
  (∀ es w0, let w := after parseValidationError es w0 in
            let w' := exec (sortIPTable p) w in
            let w'' := exec (sortIPTable p) w' in
            ∃ b, reverse (scope w) = VBool b ∧
                 reverse (scope w') = VBool (negb b) ∧
                 reverse (scope w'') = VBool b ∧
                 predicate (scope w') = p ∧
                 predicate (scope w'') = p).
Proof.
  split.
  - intros w b Hb. cbv zeta. unfold exec. rewrite sortIPTable_run.
    cbn [snd scope set_scope reverse predicate upd_reverse upd_predicate].
    by rewrite Hb.
  - intros es w0. cbv zeta.
    destruct (after_reverse_is_flag es w0) as [b Hb].
    exists b. unfold exec. rewrite !sortIPTable_run.
    cbn [snd scope set_scope reverse predicate upd_reverse upd_predicate].
    rewrite Hb. by destruct b.
Qed.

(** C8.  The controller starts with [$scope.editIPRange] and
    [$scope.deleteIPRange] both [null]; each of [ipRangeToggleEditMode],
    [ipRangeEnterDeleteMode] and [ipRangeCancelDelete] ends with at most one
    of them not [null], whatever the state it starts in; and in every state
    of the page at most one of them is not [null]. *)
Theorem ip_range_modes_exclusive :
  (∀ w0, editIPRange (scope (exec controller w0)) = VNull ∧
         deleteIPRange (scope (exec controller w0)) = VNull) ∧
  (∀ w range, exclusive (exec (ipRangeToggleEditMode range) w) ∧
              exclusive (exec (ipRangeEnterDeleteMode range) w) ∧
              exclusive (exec ipRangeCancelDelete w)) ∧
  (∀ es w0, exclusive (after parseValidationError es w0)).
Proof.
  split; [apply controller_starts_null|]. split; [|apply after_exclusive].
  intros w range. split; [apply toggle_exclusive|].
  split; [apply enter_delete_exclusive|apply cancel_delete_exclusive].
Qed.

(** On a page just entered: one click on a column sorts in reverse, a second
    click on it restores the direction; and an IP range that is being deleted
    leaves delete mode when it is put in edit mode. *)
Example sort_clicks :
  let w0 := exec controller one_vlan in
  let w1 := exec (sortIPTable (VStr "ip")) w0 in
  let w2 := exec (sortIPTable (VStr "ip")) w1 in
  reverse (scope w0) = VBool false ∧
  reverse (scope w1) = VBool true ∧
  reverse (scope w2) = VBool false ∧
  predicate (scope w2) = VStr "ip".
Proof. by vm_compute. Qed.

Example mode_clicks :
  let w0 := exec controller one_vlan in
  let w1 := exec (ipRangeEnterDeleteMode (VRef 0)) w0 in
  let w2 := exec (ipRangeToggleEditMode (VRef 0)) w1 in
  deleteIPRange (scope w1) = VRef 0 ∧ editIPRange (scope w1) = VNull ∧
  deleteIPRange (scope w2) = VNull ∧ editIPRange (scope w2) = VRef 0.
Proof. by vm_compute. Qed.

End scope_state.

Lemma sortIPTable_twice_witness :
  let w' := exec (SubnetDetailsController.sortIPTable (VStr "ip"))
                 (exec SubnetDetailsController.controller one_vlan) in
  predicate (scope w') = VStr "ip" ∧ reverse (scope w') = VBool (negb false).
Proof.
  destruct (sortIPTable_twice error_text (VStr "ip")) as [H _].
  apply (H (exec SubnetDetailsController.controller one_vlan) false).
  reflexivity.
Defined.

(** ** SubnetDetailsController: deleting the subnet *)

Section delete_subnet.

Import SubnetDetailsController.

Variable parseValidationError : value → value.

Lemma deleteConfirmButton_run (w : world) :
  deleteConfirmButton w =
    (Returns tt,
     set_thens (thens w ++ [(length (calls w), OnSubnetDeleted)])
       (set_calls (calls w ++ [Call "SubnetsManager.deleteSubnet"
                                    [subnet (scope w)]]) w)).
Proof. reflexivity. Qed.

Lemma no_continuation_yet (w : world) (p : nat) :
  Forall (λ t : nat * callback, t.1 < p) (thens w) →
  filter (λ t : nat * callback, t.1 = p) (thens w) = [].
Proof.
  induction 1 as [|t ts Ht _ IH]; [done|].
  rewrite filter_cons_False by lia. done.
Qed.

(** What settles the promise of a call just made is the continuation the
    caller attached. *)
Lemma settle_new_promise (w : world) (cb : callback) (r : settlement)
    (c : list call) :
  promises_known w →
  exec (settle parseValidationError (length (calls w)) r)
       (set_thens (thens w ++ [(length (calls w), cb)]) (set_calls c w)) =
  exec (continue parseValidationError cb r)
       (set_thens (filter (λ t : nat * callback, t.1 ≠ length (calls w))
                          (thens w))
                  (set_calls c w)).
Proof.
  intros H. unfold exec at 1, settle. cbn [snd thens set_thens set_calls].
  rewrite !filter_app, (no_continuation_yet w _ H).
  rewrite (filter_cons_True (λ t : nat * callback, t.1 = length (calls w)))
    by done.
  rewrite (filter_cons_False (λ t : nat * callback, t.1 ≠ length (calls w)))
    by (intros E; by apply E).
  rewrite !filter_nil, app_nil_r. done.
Qed.

(** *** The bookkeeping of promises *)

Lemma invoke_then_known (f : string) (xs : list value) (cb : callback) :
  preserves promises_known (invoke f xs ≫= λ p, then_ p cb).
Proof.
  intros w H. unfold promises_known, exec in *.
  change (Forall (λ t : nat * callback, t.1 < length (calls w ++ [Call f xs]))
            (thens w ++ [(length (calls w), cb)])).
  rewrite length_app, Forall_app. split.
  - eapply Forall_impl; [exact H|]. cbn. intros t Ht. lia.
  - apply Forall_singleton. cbn. lia.
Qed.

Ltac known_frame :=
  open_controller; repeat first [apply invoke_then_known | frame_step].

Lemma continue_promises_known (cb : callback) (r : settlement) :
  preserves promises_known (continue parseValidationError cb r).
Proof. destruct cb, r; unfold continue; known_frame. Qed.

Lemma settle_promises_known (p : nat) (r : settlement) :
  preserves promises_known (settle parseValidationError p r).
Proof.
  intros w H. unfold exec, settle. cbn [snd].
  apply (preserves_foldl
           (λ t : nat * callback, continue parseValidationError t.2 r)).
  - intros t. apply continue_promises_known.
  - unfold promises_known in *. cbn [thens calls set_thens].
    rewrite Forall_forall in *. intros t Ht.
    apply list_elem_of_filter in Ht as [_ Ht]. by apply H.
Qed.

Lemma handle_promises_known (e : event) (w : world) :
  promises_known w → promises_known (handle parseValidationError e w).
Proof.
  revert w. destruct e; unfold handle;
    match goal with
    | |- ∀ w, promises_known w → promises_known (exec ?m w) =>
        change (preserves promises_known m)
    end.
  12: apply settle_promises_known.
  12: destruct l; unfold listen.
  all: known_frame.
Qed.

(** On a page entered with no stray continuation, no continuation ever waits
    on a promise that does not exist. *)
Lemma after_promises_known (es : list event) (w0 : world) :
  promises_known w0 → promises_known (after parseValidationError es w0).
Proof.
  intros H0. unfold after.
  assert (H : promises_known (exec controller w0)).
  { unfold promises_known in *.
    change (Forall (λ t : nat * callback,
                      t.1 < length (calls w0 ++
                                    [Call "ManagerHelperService.loadManagers"
                                          [VRef (length (heap w0))]]))
                   (thens w0 ++ [(length (calls w0), OnManagersLoaded)])).
    rewrite length_app, Forall_app. split.
    - eapply Forall_impl; [exact H0|]. cbn. intros t Ht. lia.
    - apply Forall_singleton. cbn. lia. }
  revert H. generalize (exec controller w0).
  induction es as [|e es IH]; intros w H; [done|].
  cbn. apply IH. by apply handle_promises_known.
Qed.

(** *** The two outcomes of the deletion *)

(** C7.  [deleteConfirmButton] calls [SubnetsManager.deleteSubnet] with the
    subnet of the scope.  When the promise is rejected with [e], the scope
    gets [parseValidationError(e)] as its [error], the location path stays
    where it was and [confirmingDelete] is not changed; when the promise is
    resolved, [confirmingDelete] becomes [false] and the location path
    ["/networks"]. *)
Theorem deleteConfirmButton_outcomes (w : world) (Hw : promises_known w) :
  let w1 := exec deleteConfirmButton w in
  let p := length (calls w) in
  calls w1 = calls w ++ [Call "SubnetsManager.deleteSubnet"
                              [subnet (scope w)]] ∧
  (∀ e, let w2 := exec (settle parseValidationError p (Rejected e)) w1 in
        error (scope w2) = parseValidationError e ∧
        path w2 = path w ∧
        confirmingDelete (scope w2) = confirmingDelete (scope w)) ∧
  (∀ v, let w2 := exec (settle parseValidationError p (Resolved v)) w1 in
        confirmingDelete (scope w2) = VBool false ∧
        path w2 = VStr "/networks").
Proof.
  cbv zeta.
  assert (E : exec deleteConfirmButton w =
              set_thens (thens w ++ [(length (calls w), OnSubnetDeleted)])
                (set_calls (calls w ++ [Call "SubnetsManager.deleteSubnet"
                                             [subnet (scope w)]]) w))
    by (unfold exec; by rewrite deleteConfirmButton_run).
  rewrite E. split; [done|]. split.
  - intros e. by rewrite settle_new_promise.
  - intros v. by rewrite settle_new_promise.
Qed.

End delete_subnet.

Lemma deleteConfirmButton_outcomes_witness :
  let w1 := exec SubnetDetailsController.deleteConfirmButton one_vlan in
  let p := length (calls one_vlan) in
  calls w1 = calls one_vlan ++ [Call "SubnetsManager.deleteSubnet"
                                     [subnet (scope one_vlan)]] ∧
  (∀ e, let w2 := exec (SubnetDetailsController.settle error_text p
                          (Rejected e)) w1 in
        error (scope w2) = error_text e ∧
        path w2 = path one_vlan ∧
        confirmingDelete (scope w2) = confirmingDelete (scope one_vlan)) ∧
  (∀ v, let w2 := exec (SubnetDetailsController.settle error_text p
                          (Resolved v)) w1 in
        confirmingDelete (scope w2) = VBool false ∧
        path w2 = VStr "/networks").
Proof.
  apply (deleteConfirmButton_outcomes error_text one_vlan). apply Forall_nil_2.
Defined.

(** ** SubnetDetailsController: loading the subnet *)

Section load_subnet.

Import SubnetDetailsController.

Lemma run_gets {A B} (f : world → A) (k : A → M B) (w : world) :
  (gets f ≫= k) w = k (f w) w.
Proof. reflexivity. Qed.

Lemma run_modify {B} (f : world → world) (k : unit → M B) (w : world) :
  (modify f ≫= k) w = k tt (f w).
Proof. reflexivity. Qed.

Lemma managersLoaded_active (w : world) (n : Z) :
  isObject (active w) = true →
  read (heap w) (active w) "id" = Some (VNum n) →
  Std.parseInt (subnet_id w) = VNum n →
  managersLoaded w = subnetLoaded (active w) w.
Proof.
  intros Hobj Hid Hreq. unfold managersLoaded, SubnetsManager.getActiveItem.
  rewrite !run_gets, Hreq. cbn [isNaN]. rewrite Hobj, run_bind.
  rewrite (run_get w _ _ _ _ Hid).
  unfold mret at 1, M_ret.
  by rewrite (proj2 (strict_eq_true (VNum n) (VNum n))).
Qed.

(** [subnetLoaded] makes no call, attaches no continuation and raises no
    error. *)
Lemma subnetLoaded_quiet (P : world → Prop) (s : value) :
  (∀ x w, P w → P (set_scope x w)) →
  (∀ x w, P w → P (set_title x w)) →
  (∀ x w, P w → P (set_watches x w)) →
  preserves P (subnetLoaded s).
Proof.
  intros Hs Ht Hw.
  unfold subnetLoaded, updateTitle, watch, member, assign. frame.
  all: apply preserves_modify; intros w H;
    first [by apply Hs | by apply Ht | by apply Hw].
Qed.

Lemma subnetLoaded_scope (s : value) (w : world) :
  subnet (scope (exec (subnetLoaded s) w)) = s ∧
  loaded (scope (exec (subnetLoaded s) w)) = VBool true.
Proof.
  unfold exec, subnetLoaded, assign. rewrite !run_modify.
  set (w1 := set_scope _ _).
  assert (H : subnet (scope w1) = s ∧ loaded (scope w1) = VBool true) by done.
  revert H. generalize w1. clear w w1.
  change (preserves (λ w, subnet (scope w) = s ∧ loaded (scope w) = VBool true)
            (updateTitle ;; watch "subnet.fabric" UpdateFabric ;;
             watch "subnet.vlan" UpdateFabric ;;
             watch "subnet.cidr" UpdateIPVersion)).
  unfold updateTitle, watch, member. frame.
Qed.

(** C4.  When the managers have loaded and the active item of SubnetsManager
    is an object whose [id] is the integer read from the route parameter
    [subnet_id], the controller calls [subnetLoaded] on that item: it becomes
    the subnet of the scope, which is marked loaded.  [setActiveItem] is not
    called, and no other call is made: the list of calls, the continuations
    and the errors raised are as before. *)
Theorem active_subnet_used_directly (w : world) (n : Z)
    (Hobj : isObject (active w) = true)
    (Hid : read (heap w) (active w) "id" = Some (VNum n))
    (Hreq : Std.parseInt (subnet_id w) = VNum n) :
  managersLoaded w = subnetLoaded (active w) w ∧
  let w' := exec managersLoaded w in
  calls w' = calls w ∧
  thens w' = thens w ∧
  raised w' = raised w ∧
  subnet (scope w') = active w ∧
  loaded (scope w') = VBool true.
Proof.
  split; [by eapply managersLoaded_active|].
  cbv zeta. unfold exec. rewrite (managersLoaded_active w n Hobj Hid Hreq).
  split; [|split; [|split]].
  - by apply (subnetLoaded_quiet (λ w', calls w' = calls w)).
  - by apply (subnetLoaded_quiet (λ w', thens w' = thens w)).
  - by apply (subnetLoaded_quiet (λ w', raised w' = raised w)).
  - apply subnetLoaded_scope.
Qed.

Lemma active_subnet_used_directly_witness :
  managersLoaded active_subnet = subnetLoaded (active active_subnet) active_subnet ∧
  let w' := exec managersLoaded active_subnet in
  calls w' = calls active_subnet ∧
  thens w' = thens active_subnet ∧
  raised w' = raised active_subnet ∧
  subnet (scope w') = active active_subnet ∧
  loaded (scope w') = VBool true.
Proof.
  apply (active_subnet_used_directly active_subnet 1); reflexivity.
Defined.

(** Otherwise the subnet is fetched: with no active item, the controller
    calls [setActiveItem] with the parsed identifier. *)
Example managersLoaded_fetches :
  calls (exec managersLoaded a_subnet) =
    [Call "SubnetsManager.setActiveItem" [VNum 1]] ∧
  thens (exec managersLoaded a_subnet) = [(0, OnActiveItemSet)].
Proof. by vm_compute. Qed.

End load_subnet.

(** ** SubnetDetailsController: resolving foreign keys *)

Section foreign_keys.

Import SubnetDetailsController.











(** The two operations where the managers have the referents: they
    complete. *)
Example foreign_keys_resolved :
  result updateFabric a_subnet = Returns tt ∧
  result (subnetPreSave (VRef 0) (VRef 3)) a_subnet = Returns (VRef 0).
Proof. by vm_compute. Qed.


End foreign_keys.

(** ** Numerals and [parseInt] *)

Section numerals.

Lemma digit_of_char (x : N) :
  (x < 10)%N → Std.digit_of (pretty_N_char x) = Some (Z.of_N x).
Proof.
  intros H.
  assert (x = 0 ∨ x = 1 ∨ x = 2 ∨ x = 3 ∨ x = 4 ∨ x = 5 ∨ x = 6 ∨ x = 7
          ∨ x = 8 ∨ x = 9)%N as Hx by lia.
  repeat (destruct Hx as [->|Hx]; [reflexivity|]). by subst.
Qed.

Lemma string_app_assoc (a b c : string) : (a +:+ b) +:+ c = a +:+ b +:+ c.
Proof.
  induction a as [|x a IH]; [done|].
  change (String x ((a +:+ b) +:+ c) = String x (a +:+ b +:+ c)).
  by rewrite IH.
Qed.

Lemma pretty_N_go_app (x : N) (s : string) :
  pretty_N_go x s = pretty_N_go x "" +:+ s.
Proof.
  revert s. induction (N.lt_wf_0 x) as [x _ IH]; intros s.
  assert (x = 0 ∨ 0 < x)%N as [->|Hx] by lia; [done|].
  assert (Hlt : (x `div` 10 < x)%N) by by apply N.div_lt.
  rewrite !(pretty_N_go_step x) by done.
  rewrite (IH _ Hlt (String (pretty_N_char (x `mod` 10)) s)).
  rewrite (IH _ Hlt (String (pretty_N_char (x `mod` 10)) "")).
  by rewrite string_app_assoc.
Qed.

Lemma digits_pretty_N_go (x : N) (s : string) :
  Std.digits (pretty_N_go x s) None =
  Std.digits s (if decide (x = 0%N) then None else Some (Z.of_N x)).
Proof.
  revert s. induction (N.lt_wf_0 x) as [x _ IH]; intros s.
  assert (x = 0 ∨ 0 < x)%N as [->|Hx] by lia; [done|].
  rewrite pretty_N_go_step, IH by (done || by apply N.div_lt).
  rewrite (decide_False (P := x = 0%N)) by lia. cbn [Std.digits].
  rewrite digit_of_char by (apply N.mod_lt; lia).
  f_equal. f_equal.
  assert (Hdm : (x = 10 * (x `div` 10) + x `mod` 10)%N)
    by by apply N.div_mod.
  destruct (decide _) as [E|E]; cbn [default]; unfold id;
    [rewrite E in Hdm|]; lia.
Qed.

Lemma digits_done (s : string) (acc : option Z) :
  reads_digit_first s = false → Std.digits s acc = acc.
Proof.
  destruct s as [|c s]; [done|]. cbn. intros H.
  destruct (Std.digit_of c); [|done].
  by rewrite bool_decide_eq_false in H; destruct H.
Qed.

Lemma pretty_N_go_head (x : N) (s : string) :
  (0 < x)%N →
  ∃ c t d, pretty_N_go x s = String c t ∧ Std.digit_of c = Some d.
Proof.
  revert s. induction (N.lt_wf_0 x) as [x _ IH]; intros s Hx.
  rewrite pretty_N_go_step by done.
  destruct (N.eq_0_gt_0_cases (x `div` 10)) as [->|Hd].
  - rewrite pretty_N_go_0. eexists _, _, _. split; [done|].
    apply digit_of_char, N.mod_lt. lia.
  - apply IH; [by apply N.div_lt|done].
Qed.

Lemma parseInt_digit_first (s : string) :
  reads_digit_first s = true →
  Std.parseInt (VStr s) = match Std.digits s None with
                          | Some n => VNum n
                          | None => VNaN
                          end.
Proof.
  destruct s as [|c t]; [done|]. unfold reads_digit_first.
  rewrite bool_decide_eq_true. intros [d Hd].
  unfold Std.parseInt. cbn [to_string].
  destruct c as [[] [] [] [] [] [] [] []]; try (by vm_compute in Hd);
    reflexivity.
Qed.

(** The numeral of a natural number, followed by text that does not start
    with a digit, is read back as the number. *)
Lemma parseInt_natural (x : N) (rest : string) :
  reads_digit_first rest = false →
  Std.parseInt (VStr (pretty x +:+ rest)) = VNum (Z.of_N x).
Proof.
  intros Hrest. unfold pretty, pretty_N.
  destruct (decide (x = 0%N)) as [->|Hx].
  - rewrite parseInt_digit_first by done.
    change (Std.digits ("0" +:+ rest) None) with (Std.digits rest (Some 0%Z)).
    by rewrite digits_done.
  - rewrite <-pretty_N_go_app.
    destruct (pretty_N_go_head x rest) as (c & t & d & E & Hd); [lia|].
    rewrite parseInt_digit_first
      by (rewrite E; cbn; rewrite Hd; by apply bool_decide_eq_true).
    rewrite digits_pretty_N_go, decide_False, digits_done by done. done.
Qed.

Lemma reads_digit_first_digit (s : string) :
  reads_digit_first s = starts_with_digit s.
Proof.
  destruct s as [|c s]; [done|].
  by destruct c as [[] [] [] [] [] [] [] []]; vm_compute.
Qed.

(** The numeral of an integer, followed by text that does not start with a
    digit, is read back as the integer. *)
Lemma parseInt_numeral (n : Z) (rest : string) :
  starts_with_digit rest = false →
  Std.parseInt (VStr (pretty n +:+ rest)) = VNum n.
Proof.
  rewrite <-reads_digit_first_digit.
  intros Hrest. destruct n as [|p|p].
  - apply (parseInt_natural 0 rest Hrest).
  - apply (parseInt_natural (Npos p) rest Hrest).
  - unfold pretty, pretty_Z. rewrite string_app_assoc.
    unfold Std.parseInt. cbn [to_string].
    change (Std.skip_space ("-" +:+ pretty p +:+ rest))
      with (String "-" (pretty p +:+ rest)).
    cbv iota beta.
    pose proof (parseInt_natural (Npos p) rest Hrest) as H.
    change (pretty p) with (pretty (Npos p)).
    unfold pretty, pretty_N in H |- *.
    rewrite decide_False in H |- * by done.
    rewrite <-pretty_N_go_app in H |- *.
    destruct (pretty_N_go_head (Npos p) rest) as (c & t & d & E & Hd); [lia|].
    rewrite parseInt_digit_first in H
      by (rewrite E; cbn; rewrite Hd; by apply bool_decide_eq_true).
    destruct (Std.digits _ None); by simplify_eq.
Qed.

(** A missing route parameter, an empty one and one that starts with a letter
    are read as NaN. *)
Lemma parseInt_no_numeral (v : value) :
  no_numeral v → Std.parseInt v = VNaN.
Proof.
  intros [->|[->|(c & t & -> & Hc)]]; [done|done|].
  unfold Std.parseInt. cbn [to_string].
  by destruct c as [[] [] [] [] [] [] [] []]; vm_compute in Hc.
Qed.

Lemma other_active_read (w : world) (n : Z) :
  other_active w n →
  isObject (active w) = false ∨
  ∃ id, read (heap w) (active w) "id" = Some id ∧ id ≠ VNum n.
Proof.
  intros [[E|E]|(o & Ho & Hid)].
  - left. by rewrite E.
  - left. by rewrite E.
  - right. exists (prop o "id"). split; [|done]. by apply read_object.
Qed.
End numerals.

(** ** VLANsManager: the rack controllers, and what the calls leave alone *)

Section vlans_manager_more.

Import VLANsManager.

Lemma run_push (w : world) (a : loc) (es : list value) (x : value)
    {B} (f : value → M B) :
  heap w !! a = Some (Arr es) →
  (push (VRef a) x ≫= f) w =
    f (VNum (Z.of_nat (length es) + 1))
      (set_heap (<[a := Arr (es ++ [x])]> (heap w)) w).
Proof. intros H. rewrite run_bind. unfold push. by rewrite H. Qed.

(** X1.  [addRackController] appends [rack.system_id] to the array
    [vlan.rack_sids], in place: the array is the same object, one element
    longer (also when the id was in it already); every other object, the
    cached collection and the calls made are as before. *)
Theorem addRackController_appends (w : world) (vlan rack : value)
    (o r : gmap string value) (a : loc) (es : list value)
    (Hvlan : is_object w vlan o)
    (Hsids : o !! "rack_sids" = Some (VRef a))
    (Harr : heap w !! a = Some (Arr es))
    (Hrack : is_object w rack r) :
  let w' := exec (addRackController vlan rack) w in
  result (addRackController vlan rack) w = Returns tt ∧
  heap w' !! a = Some (Arr (es ++ [prop r "system_id"])) ∧
  (∀ l, l ≠ a → heap w' !! l = heap w !! l) ∧
  calls w' = calls w ∧
  vlans w' = vlans w.
Proof.
  assert (E : addRackController vlan rack w =
              (Returns tt,
               set_heap (<[a := Arr (es ++ [prop r "system_id"])]> (heap w))
                        w)).
  { unfold addRackController.
    rewrite (run_get w vlan "rack_sids" (VRef a))
      by (rewrite (read_object w vlan o) by done; unfold prop;
          by rewrite Hsids).
    rewrite (run_get w rack "system_id" (prop r "system_id"))
      by by apply read_object.
    by rewrite (run_push w a es). }
  unfold exec, result. rewrite E. cbn [fst snd heap set_heap calls vlans].
  split; [done|]. split; [|split; [|done]].
  - apply list_lookup_insert_eq. by eapply lookup_lt_Some.
  - intros l Hl. by apply list_lookup_insert_ne.
Qed.

(** X2.  When [vlan.rack_sids] is missing, or is anything but an array,
    [addRackController] faults with a TypeError and changes nothing, whatever
    the rack is. *)
Theorem addRackController_needs_array (w : world) (vlan rack : value)
    (o : gmap string value)
    (Hvlan : is_object w vlan o)
    (Hsids : ∀ a es, prop o "rack_sids" = VRef a →
                     heap w !! a ≠ Some (Arr es)) :
  addRackController vlan rack w = (Throws TypeError, w).
Proof.
  unfold addRackController.
  rewrite (run_get w vlan "rack_sids" (prop o "rack_sids"))
    by by apply read_object.
  destruct (read (heap w) rack "system_id") as [x|] eqn:Hrack;
    [|by rewrite run_get_fault].
  rewrite (run_get w rack _ x) by done.
  rewrite run_bind. unfold push.
  destruct (prop o "rack_sids") as [| | | | | | | | |a] eqn:E; try done.
  destruct (heap w !! a) as [[fs|es]|] eqn:Ha; try done.
  by destruct (Hsids a es).
Qed.

Lemma addRackController_appends_witness :
  let w' := exec (addRackController (VRef 0) (VRef 2)) one_rack in
  result (addRackController (VRef 0) (VRef 2)) one_rack = Returns tt ∧
  heap w' !! 1 = Some (Arr ([VStr "abc"] ++ [prop rack_xyz "system_id"])) ∧
  (∀ l, l ≠ 1 → heap w' !! l = heap one_rack !! l) ∧
  calls w' = calls one_rack ∧
  vlans w' = vlans one_rack.
Proof.
  apply (addRackController_appends one_rack (VRef 0) (VRef 2) racked_vlan
           rack_xyz 1 [VStr "abc"]).
  - exists 0. split; reflexivity.
  - reflexivity.
  - reflexivity.
  - exists 2. split; reflexivity.
Defined.

Lemma addRackController_needs_array_witness :
  addRackController (VRef 0) (VRef 0) one_vlan = (Throws TypeError, one_vlan).
Proof.
  apply (addRackController_needs_array one_vlan (VRef 0) (VRef 0) vlan10).
  - exists 0. split; reflexivity.
  - intros a es H. by vm_compute in H.
Defined.

(** X3.  [configureDHCP] and [disableDHCP] return the promise of the call
    they make and do nothing else to the page: the cached collection is as
    before, every object that existed is unchanged (the VLAN is not marked in
    any way), and no continuation is attached. *)
Theorem dhcp_calls_keep_cache (w : world) (vlan controllers extra : value)
    (o : gmap string value) (Hvlan : is_object w vlan o) :
  (let w' := exec (configureDHCP vlan controllers extra) w in
   result (configureDHCP vlan controllers extra) w
     = Returns (VPromise (length (calls w))) ∧
   length (calls w') = S (length (calls w)) ∧
   vlans w' = vlans w ∧ objects_kept w w' ∧ thens w' = thens w ∧
   scope w' = scope w) ∧
  (let w' := exec (disableDHCP vlan) w in
   result (disableDHCP vlan) w = Returns (VPromise (length (calls w))) ∧
   length (calls w') = S (length (calls w)) ∧
   vlans w' = vlans w ∧ objects_kept w w' ∧ thens w' = thens w ∧
   scope w' = scope w).
Proof.
  unfold exec, result.
  rewrite (configureDHCP_run w vlan controllers extra o Hvlan).
  rewrite (disableDHCP_run w vlan o Hvlan).
  cbn [fst snd calls set_calls set_heap vlans thens scope].
  rewrite !length_app. cbn [length].
  repeat split; try done; try lia.
  - by eapply objects_kept_app.
  - eapply (objects_kept_app _ _ ([Arr []] ++ [_])).
    cbn [heap set_calls set_heap]. by rewrite <-app_assoc.
Qed.

Lemma dhcp_calls_keep_cache_witness :
  (let w' := exec (configureDHCP (VRef 0) VNull VNull) one_vlan in
   result (configureDHCP (VRef 0) VNull VNull) one_vlan
     = Returns (VPromise (length (calls one_vlan))) ∧
   length (calls w') = S (length (calls one_vlan)) ∧
   vlans w' = vlans one_vlan ∧ objects_kept one_vlan w' ∧
   thens w' = thens one_vlan ∧ scope w' = scope one_vlan) ∧
  (let w' := exec (disableDHCP (VRef 0)) one_vlan in
   result (disableDHCP (VRef 0)) one_vlan
     = Returns (VPromise (length (calls one_vlan))) ∧
   length (calls w') = S (length (calls one_vlan)) ∧
   vlans w' = vlans one_vlan ∧ objects_kept one_vlan w' ∧
   thens w' = thens one_vlan ∧ scope w' = scope one_vlan).
Proof.
  apply (dhcp_calls_keep_cache one_vlan (VRef 0) VNull VNull vlan10).
  exists 0. split; reflexivity.
Defined.

(** X4.  On [null] or [undefined] in place of the VLAN, [getName],
    [deleteVLAN], [configureDHCP] and [disableDHCP] fault with a TypeError
    before anything is sent or written; [create] does not look at its
    argument and sends it as it is. *)
Theorem no_vlan_no_request (w : world) (vlan controllers extra : value)
    (Hvlan : nullish vlan) :
  getName vlan w = (Throws TypeError, w) ∧
  deleteVLAN vlan w = (Throws TypeError, w) ∧
  configureDHCP vlan controllers extra w = (Throws TypeError, w) ∧
  disableDHCP vlan w = (Throws TypeError, w) ∧
  result (create vlan) w = Returns (VPromise (length (calls w))) ∧
  calls (exec (create vlan) w)
    = calls w ++ [Call "RegionConnection.callMethod"
                       [VStr "vlan.create"; vlan]].
Proof. by destruct Hvlan as [-> | ->]. Qed.

Lemma no_vlan_no_request_witness :
  getName VNull one_vlan = (Throws TypeError, one_vlan) ∧
  deleteVLAN VNull one_vlan = (Throws TypeError, one_vlan) ∧
  configureDHCP VNull VNull VNull one_vlan = (Throws TypeError, one_vlan) ∧
  disableDHCP VNull one_vlan = (Throws TypeError, one_vlan) ∧
  result (create VNull) one_vlan
    = Returns (VPromise (length (calls one_vlan))) ∧
  calls (exec (create VNull) one_vlan)
    = calls one_vlan ++ [Call "RegionConnection.callMethod"
                              [VStr "vlan.create"; VNull]].
Proof. apply (no_vlan_no_request one_vlan VNull VNull VNull). by left. Defined.

Lemma string_app_empty (s : string) : s +:+ "" = s.
Proof.
  induction s as [|c s IH]; [done|].
  change (String c (s +:+ "") = String c s). by rewrite IH.
Qed.

(** A number is read back as itself. *)
Lemma parseInt_number (n : Z) : Std.parseInt (VNum n) = VNum n.
Proof.
  change (Std.parseInt (VNum n)) with (Std.parseInt (VStr (pretty n))).
  rewrite <-(string_app_empty (pretty n)). by apply parseInt_numeral.
Qed.

(** The name of a VLAN with a number as its [vid] starts with that number,
    unless the VLAN is untagged: read back with [parseInt] the name gives
    the [vid] of a tagged VLAN, and NaN for the untagged one. *)
Lemma parseInt_getName (w : world) (vlan : value) (o : gmap string value)
    (n : Z) :
  is_object w vlan o →
  prop o "vid" = VNum n →
  ∃ name, result (getName vlan) w = Returns name ∧
          Std.parseInt name = if decide (n = 0%Z) then VNaN else VNum n.
Proof.
  intros Hvlan Hvid. unfold result.
  rewrite (getName_run w vlan o Hvlan), Hvid. cbn [fst].
  destruct (decide (n = 0%Z)) as [->|Hn]; [by eexists|].
  rewrite strict_eq_false by congruence.
  destruct (prop o "name") as [| | | | |s| | | |]; cbn [isString andb];
    try (eexists; split; [done|]; apply parseInt_number).
  destruct (strict_eq (VStr s) (VStr "")); cbn [negb];
    (eexists; split; [done|]).
  - apply parseInt_number.
  - by apply (parseInt_numeral n).
Qed.

(** X5.  VLANs whose [vid]s are different numbers never get the same name:
    where [getName] gives two VLAN objects the same name, their [vid]s
    (integers JavaScript holds exactly) are equal, whatever the names of the
    VLANs are and whatever pages they are on. *)
Theorem getName_tells_vids_apart (w1 w2 : world) (vlan1 vlan2 : value)
    (o1 o2 : gmap string value) (n1 n2 : Z)
    (Hvlan1 : is_object w1 vlan1 o1) (Hvid1 : prop o1 "vid" = VNum n1)
    (Hvlan2 : is_object w2 vlan2 o2) (Hvid2 : prop o2 "vid" = VNum n2)
    (Hn1 : safe_integer n1) (Hn2 : safe_integer n2)
    (Hsame : result (getName vlan1) w1 = result (getName vlan2) w2) :
  n1 = n2.
Proof.
  destruct (parseInt_getName w1 vlan1 o1 n1 Hvlan1 Hvid1) as (r1 & E1 & P1).
  destruct (parseInt_getName w2 vlan2 o2 n2 Hvlan2 Hvid2) as (r2 & E2 & P2).
  rewrite E1, E2 in Hsame. injection Hsame as ->. rewrite P1 in P2.
  repeat case_decide; by simplify_eq.
Qed.

Lemma getName_tells_vids_apart_witness : (10 = 10)%Z.
Proof.
  apply (getName_tells_vids_apart one_vlan one_vlan (VRef 0) (VRef 0)
           vlan10 vlan10 10 10).
  - exists 0. split; reflexivity.
  - reflexivity.
  - exists 0. split; reflexivity.
  - reflexivity.
  - unfold safe_integer. lia.
  - unfold safe_integer. lia.
  - reflexivity.
Defined.

End vlans_manager_more.

(** ** SubnetDetailsController: which subnet is asked for *)

Section load_subnet_more.

Import SubnetDetailsController.

Variable parseValidationError : value → value.

Lemma managersLoaded_invalid_run (w : world) :
  Std.parseInt (subnet_id w) = VNaN →
  managersLoaded w =
    (Returns tt,
     set_raised (raised w ++ [VStr "Invalid subnet identifier."]) w).
Proof.
  intros H. unfold managersLoaded, SubnetsManager.getActiveItem.
  by rewrite !run_gets, H.
Qed.

(** X6.  When the route parameter [subnet_id] holds no number (it is missing,
    or empty, or starts with a letter), the controller raises the error "Invalid subnet
    identifier." and does nothing else: the scope is as before (the page is
    not marked loaded), no service is called and no continuation attached. *)
Theorem invalid_subnet_id_raises (w : world)
    (Hid : no_numeral (subnet_id w)) :
  let w' := exec managersLoaded w in
  result managersLoaded w = Returns tt ∧
  raised w' = raised w ++ [VStr "Invalid subnet identifier."] ∧
  scope w' = scope w ∧ title w' = title w ∧
  calls w' = calls w ∧ thens w' = thens w ∧ watches w' = watches w.
Proof.
  unfold exec, result.
  by rewrite (managersLoaded_invalid_run w (parseInt_no_numeral _ Hid)).
Qed.

Lemma managersLoaded_fetch_run (w : world) (n : Z) :
  Std.parseInt (subnet_id w) = VNum n →
  (isObject (active w) = false ∨
   ∃ id, read (heap w) (active w) "id" = Some id ∧ id ≠ VNum n) →
  managersLoaded w =
    (Returns tt,
     set_thens (thens w ++ [(length (calls w), OnActiveItemSet)])
       (set_calls (calls w ++ [Call "SubnetsManager.setActiveItem" [VNum n]])
                  w)).
Proof.
  intros Hreq Hother. unfold managersLoaded, SubnetsManager.getActiveItem.
  rewrite !run_gets, Hreq. cbn [isNaN].
  destruct (isObject (active w)) eqn:Hobj.
  - destruct Hother as [|(id & Hid & Hne)]; [done|].
    rewrite run_bind, (run_get w _ _ _ _ Hid).
    unfold mret at 1, M_ret. by rewrite strict_eq_false.
  - done.
Qed.

(** X7.  When the route parameter [subnet_id] is the decimal numeral of an
    integer [n] (one that JavaScript holds exactly), followed or not by text
    that does not start with a digit, and the active item of SubnetsManager
    is not an object with that number as its [id] (there is none, or its
    [id] is another number, or the same digits as a string), the controller
    calls [setActiveItem(n)], with the number itself, once, and waits: the
    scope is as before and no error is raised. *)
Theorem other_subnet_is_fetched (w : world) (n : Z) (rest : string)
    (Hn : safe_integer n)
    (Hroute : subnet_id w = VStr (pretty n +:+ rest))
    (Hrest : starts_with_digit rest = false)
    (Hother : other_active w n) :
  let w' := exec managersLoaded w in
  result managersLoaded w = Returns tt ∧
  calls w' = calls w ++ [Call "SubnetsManager.setActiveItem" [VNum n]] ∧
  thens w' = thens w ++ [(length (calls w), OnActiveItemSet)] ∧
  scope w' = scope w ∧ raised w' = raised w ∧ title w' = title w.
Proof.
  assert (Hreq : Std.parseInt (subnet_id w) = VNum n)
    by (rewrite Hroute; by apply parseInt_numeral).
  unfold exec, result.
  by rewrite (managersLoaded_fetch_run w n Hreq (other_active_read w n Hother)).
Qed.

(** X8.  Once the subnet has been asked for (the route names the subnet [n]
    and another or none is active), the page follows the promise:
    resolved with a subnet, that subnet becomes the subnet of the scope and
    the page is marked loaded; rejected, the error is raised through
    ErrorService and the scope stays as it was, not loaded. *)
Theorem fetched_subnet_outcomes (w : world) (n : Z) (rest : string)
    (Hw : promises_known w)
    (Hn : safe_integer n)
    (Hroute : subnet_id w = VStr (pretty n +:+ rest))
    (Hrest : starts_with_digit rest = false)
    (Hother : other_active w n) :
  let w1 := exec managersLoaded w in
  let p := length (calls w) in
  (∀ s, let w2 := exec (settle parseValidationError p (Resolved s)) w1 in
        subnet (scope w2) = s ∧ loaded (scope w2) = VBool true ∧
        raised w2 = raised w ∧ calls w2 = calls w1) ∧
  (∀ e, let w2 := exec (settle parseValidationError p (Rejected e)) w1 in
        raised w2 = raised w ++ [e] ∧ scope w2 = scope w ∧
        calls w2 = calls w1).
Proof.
  cbv zeta.
  assert (E : exec managersLoaded w =
              set_thens (thens w ++ [(length (calls w), OnActiveItemSet)])
                (set_calls (calls w ++ [Call "SubnetsManager.setActiveItem"
                                             [VNum n]]) w)).
  { assert (Hreq : Std.parseInt (subnet_id w) = VNum n)
      by (rewrite Hroute; by apply parseInt_numeral).
    unfold exec.
    by rewrite (managersLoaded_fetch_run w n Hreq
                  (other_active_read w n Hother)). }
  rewrite E. split.
  - intros s. rewrite (settle_new_promise parseValidationError) by done.
    unfold continue, activeItemSet.
    split; [apply subnetLoaded_scope|]. split; [apply subnetLoaded_scope|].
    split.
    + by apply (subnetLoaded_quiet (λ w', raised w' = raised w)).
    + by apply (subnetLoaded_quiet (λ w', calls w' = _)).
  - intros e. by rewrite (settle_new_promise parseValidationError).
Qed.

End load_subnet_more.

Lemma invalid_subnet_id_raises_witness :
  let w' := exec SubnetDetailsController.managersLoaded one_vlan in
  result SubnetDetailsController.managersLoaded one_vlan = Returns tt ∧
  raised w' = raised one_vlan ++ [VStr "Invalid subnet identifier."] ∧
  scope w' = scope one_vlan ∧ title w' = title one_vlan ∧
  calls w' = calls one_vlan ∧ thens w' = thens one_vlan ∧
  watches w' = watches one_vlan.
Proof. apply (invalid_subnet_id_raises one_vlan). by left. Defined.

Lemma other_subnet_is_fetched_witness :
  let w' := exec SubnetDetailsController.managersLoaded a_subnet in
  result SubnetDetailsController.managersLoaded a_subnet = Returns tt ∧
  calls w' = calls a_subnet
             ++ [Call "SubnetsManager.setActiveItem" [VNum 1]] ∧
  thens w' = thens a_subnet ++ [(length (calls a_subnet), OnActiveItemSet)] ∧
  scope w' = scope a_subnet ∧ raised w' = raised a_subnet ∧
  title w' = title a_subnet.
Proof.
  apply (other_subnet_is_fetched a_subnet 1 "");
    [unfold safe_integer; lia | reflexivity | reflexivity | by left; left].
Defined.

Lemma fetched_subnet_outcomes_witness :
  let w1 := exec SubnetDetailsController.managersLoaded a_subnet in
  let p := length (calls a_subnet) in
  (∀ s, let w2 := exec (SubnetDetailsController.settle error_text p
                          (Resolved s)) w1 in
        subnet (scope w2) = s ∧ loaded (scope w2) = VBool true ∧
        raised w2 = raised a_subnet ∧ calls w2 = calls w1) ∧
  (∀ e, let w2 := exec (SubnetDetailsController.settle error_text p
                          (Rejected e)) w1 in
        raised w2 = raised a_subnet ++ [e] ∧ scope w2 = scope a_subnet ∧
        calls w2 = calls w1).
Proof.
  apply (fetched_subnet_outcomes error_text a_subnet 1 "");
    [apply Forall_nil_2 | unfold safe_integer; lia | reflexivity
    | reflexivity | by left; left].
Defined.

(** ** SubnetDetailsController: what the page shows *)

Section display.

Import SubnetDetailsController.

Lemma updateTitle_run (w : world) (s : value) (o : gmap string value) :
  subnet (scope w) = s →
  is_object w s o →
  updateTitle w =
    (Returns tt,
     if truthy (prop o "cidr") then
       if truthy (prop o "name")
          && negb (strict_eq (prop o "cidr") (prop o "name"))
       then set_title (js_add (prop o "cidr")
                         (js_add (js_add (VStr " (") (prop o "name"))
                                 (VStr ")"))) w
       else set_title (prop o "cidr") w
     else w).
Proof.
  intros Hs Ho. unfold updateTitle, member. rewrite run_gets, Hs.
  assert (Ht : truthy s = true) by (by destruct Ho as (l & -> & _)).
  rewrite Ht.
  rewrite (run_get w s "cidr" (prop o "cidr")) by by apply read_object.
  destruct (truthy (prop o "cidr")); [|done].
  rewrite (run_get w s "cidr" (prop o "cidr")) by by apply read_object.
  rewrite run_modify.
  assert (Ho' : is_object (set_title (prop o "cidr") w) s o) by done.
  rewrite (run_get _ s "name" (prop o "name")) by by apply read_object.
  rewrite run_bind.
  destruct (truthy (prop o "name")) eqn:Hname.
  - rewrite (run_get _ s "cidr" (prop o "cidr")) by by apply read_object.
    rewrite (run_get _ s "name" (prop o "name")) by by apply read_object.
    unfold mret at 1, M_ret. cbn [truthy andb].
    destruct (negb _); [|done].
    by rewrite (run_get _ s "name" (prop o "name")) by by apply read_object.
  - unfold mret at 1, M_ret. by rewrite Hname.
Qed.

Lemma subnetLoaded_title_run (w : world) (s : value) :
  title (exec (subnetLoaded s) w)
  = title (exec updateTitle
             (set_scope (upd_loaded (VBool true) (upd_subnet s (scope w))) w)).
Proof.
  unfold exec, subnetLoaded, assign, watch. rewrite !run_modify.
  rewrite run_bind. by destruct (updateTitle _) as [[[]|e] w'].
Qed.

(** X9.  The title of the page after [subnetLoaded(subnet)], for a subnet
    object: when the subnet has no CIDR (none, [null] or an empty one) the
    title is left as it was; when it has a CIDR and no name, or the CIDR as
    its name, the title is the CIDR alone; when it has a CIDR and another
    name, the title is the CIDR, a blank, and the name between "(" and
    ")". *)
Theorem title_of_loaded_subnet (w : world) (s : value)
    (o : gmap string value) (Ho : is_object w s o) :
  let w' := exec (subnetLoaded s) w in
  (blank (prop o "cidr") → title w' = title w) ∧
  (∀ cidr, prop o "cidr" = VStr cidr → cidr ≠ "" →
     blank (prop o "name") ∨ prop o "name" = VStr cidr →
     title w' = VStr cidr) ∧
  (∀ cidr name, prop o "cidr" = VStr cidr → prop o "name" = VStr name →
     cidr ≠ "" → name ≠ "" → cidr ≠ name →
     title w' = VStr (cidr +:+ " (" +:+ name +:+ ")")).
Proof.
  cbv zeta. rewrite subnetLoaded_title_run. unfold exec.
  set (w1 := set_scope _ w).
  rewrite (updateTitle_run w1 s o eq_refl Ho). cbn [snd].
  replace (title w) with (title w1) by done.
  split; [|split].
  - by intros [-> | [-> | ->]].
  - intros cidr -> Hc Hname.
    destruct Hname as [[-> | [-> | ->]] | ->]; cbn [truthy];
      rewrite (proj2 (String.eqb_neq cidr "")) by done; try done.
    by rewrite (proj2 (strict_eq_true (VStr cidr) (VStr cidr))).
  - intros cidr name -> -> Hc Hn Hne. cbn [truthy].
    rewrite (proj2 (String.eqb_neq cidr "")), (proj2 (String.eqb_neq name ""))
      by done.
    rewrite strict_eq_false by congruence. done.
Qed.

Lemma before_separator (sep : ascii) (a b : string) :
  Std.lacks sep a = true → Std.before sep (a +:+ String sep b) = a.
Proof.
  induction a as [|c a IH]; intros H.
  - change (Std.before sep (String sep b) = "").
    cbn [Std.before]. by rewrite Ascii.eqb_refl.
  - cbn [Std.lacks] in H. apply andb_true_iff in H as [Hc Ha].
    change (Std.before sep (String c (a +:+ String sep b)) = String c a).
    cbn [Std.before]. apply negb_true_iff in Hc. rewrite Hc.
    by rewrite IH.
Qed.

Lemma before_whole (sep : ascii) (a : string) :
  Std.lacks sep a = true → Std.before sep a = a.
Proof.
  induction a as [|c a IH]; intros H; [done|].
  cbn [Std.lacks] in H. apply andb_true_iff in H as [Hc Ha].
  cbn [Std.before]. apply negb_true_iff in Hc. rewrite Hc.
  by rewrite IH.
Qed.

Lemma updateIPVersion_run (w : world) (s : value) (o : gmap string value) :
  subnet (scope w) = s →
  is_object w s o →
  updateIPVersion w =
    match prop o "cidr" with
    | VStr cidr =>
        (Returns tt,
         set_scope (upd_ipVersion
                      (VNum (if Std.lacks ":" (Std.before "/" cidr) then 4
                             else 6)) (scope w)) w)
    | _ => (Throws TypeError, w)
    end.
Proof.
  intros Hs Ho. unfold updateIPVersion, member. rewrite run_gets, Hs.
  rewrite (run_get w s "cidr" (prop o "cidr")) by by apply read_object.
  destruct (prop o "cidr"); try done.
  by destruct (Std.lacks _ _).
Qed.

Lemma lacks_has_char (c : ascii) (s : string) :
  Std.lacks c s = true ↔ ¬ has_char c s.
Proof.
  unfold has_char. induction s as [|c' s IH]; cbn [Std.lacks];
    [split; [intros _ H; exact H | done]|].
  change (list_ascii_of_string (String c' s))
    with (c' :: list_ascii_of_string s).
  rewrite andb_true_iff, negb_true_iff, Ascii.eqb_neq, IH. cbn [In]. tauto.
Qed.

Lemma lacks_has_char_false (c : ascii) (s : string) :
  Std.lacks c s = false ↔ has_char c s.
Proof.
  pose proof (lacks_has_char c s) as H.
  destruct (Std.lacks c s).
  - split; [done|]. intros Hc. by destruct (proj1 H).
  - split; [|done]. intros _.
    destruct (In_dec ascii_dec c (list_ascii_of_string s)) as [Hin|Hin];
      [done|]. by destruct (Bool.diff_false_true (proj2 H Hin)).
Qed.

(** X10.  [updateIPVersion] decides on the address part of the CIDR alone:
    for a CIDR [address/mask] the version becomes 4 when the address has no
    colon and 6 when it has one, whatever the mask part is; a CIDR with no
    slash is taken whole as the address.  When the CIDR of the subnet is not
    a string (it is missing, for one), the function faults with a TypeError
    and the version stays as it was. *)
Theorem ip_version_of_cidr (w : world) (s : value) (o : gmap string value)
    (Hs : subnet (scope w) = s) (Ho : is_object w s o) :
  (∀ address mask,
     ¬ has_char "/" address →
     prop o "cidr" = VStr (address +:+ String "/" mask)
     ∨ prop o "cidr" = VStr address →
     result updateIPVersion w = Returns tt ∧
     (¬ has_char ":" address →
      ipVersion (scope (exec updateIPVersion w)) = VNum 4) ∧
     (has_char ":" address →
      ipVersion (scope (exec updateIPVersion w)) = VNum 6)) ∧
  ((∀ text, prop o "cidr" ≠ VStr text) →
     updateIPVersion w = (Throws TypeError, w)).
Proof.
  unfold exec, result. rewrite (updateIPVersion_run w s o Hs Ho). split.
  - intros address mask Hslash Hcidr. apply lacks_has_char in Hslash.
    assert (E : ∃ cidr, prop o "cidr" = VStr cidr
                        ∧ Std.before "/" cidr = address).
    { destruct Hcidr as [-> | ->]; eexists; (split; [done|]);
        [by apply before_separator | by apply before_whole]. }
    destruct E as (cidr & -> & ->). cbn [fst snd].
    split; [done|]. split.
    + intros Hc. apply lacks_has_char in Hc. by rewrite Hc.
    + intros Hc. apply lacks_has_char_false in Hc. by rewrite Hc.
  - intros H. destruct (prop o "cidr") eqn:E; try done. by destruct (H s0).
Qed.

(** *** The keys of the IP table *)

Variable ipv4ToInteger ipv6Expand : value → outcome value.

Lemma ipSort_run (w : world) (ipAddress : value) (o : gmap string value) :
  is_object w ipAddress o →
  ipSort ipv4ToInteger ipv6Expand ipAddress w =
    (if strict_eq (ipVersion (scope w)) (VNum 4)
     then ipv4ToInteger (prop o "ip") else ipv6Expand (prop o "ip"), w).
Proof.
  intros Ho. unfold ipSort, member. rewrite run_gets.
  destruct (strict_eq _ _);
    by rewrite (run_get w _ "ip" (prop o "ip")) by by apply read_object.
Qed.

(** X11.  [ipSort] follows the version [updateIPVersion] found: once the
    listener has run on the CIDR [address/mask] of the subnet, an IP address
    object is keyed by [ipv4ToInteger] of its [ip] when the address part has
    no colon and by [ipv6Expand] of it when it has one.  Until the version is
    4 (before the listener has run, it is [undefined]) the key is that of
    [ipv6Expand].  [ipSort] changes nothing. *)
Theorem ipSort_follows_cidr (w : world) (s ipAddress : value)
    (o a : gmap string value) (address mask : string)
    (Hs : subnet (scope w) = s) (Ho : is_object w s o)
    (Hcidr : prop o "cidr" = VStr (address +:+ String "/" mask))
    (Haddress : ¬ has_char "/" address)
    (Ha : is_object w ipAddress a) :
  (¬ has_char ":" address →
   ipSort ipv4ToInteger ipv6Expand ipAddress (exec updateIPVersion w)
   = (ipv4ToInteger (prop a "ip"), exec updateIPVersion w)) ∧
  (has_char ":" address →
   ipSort ipv4ToInteger ipv6Expand ipAddress (exec updateIPVersion w)
   = (ipv6Expand (prop a "ip"), exec updateIPVersion w)) ∧
  (ipVersion (scope w) ≠ VNum 4 →
   ipSort ipv4ToInteger ipv6Expand ipAddress w
   = (ipv6Expand (prop a "ip"), w)).
Proof.
  apply lacks_has_char in Haddress.
  assert (E : exec updateIPVersion w =
              set_scope (upd_ipVersion
                           (VNum (if Std.lacks ":" address then 4 else 6))
                           (scope w)) w).
  { unfold exec. rewrite (updateIPVersion_run w s o Hs Ho), Hcidr.
    cbn [snd]. by rewrite before_separator. }
  rewrite E. split; [|split].
  - intros Hc. apply lacks_has_char in Hc. rewrite Hc.
    by rewrite (ipSort_run _ ipAddress a).
  - intros Hc. apply lacks_has_char_false in Hc. rewrite Hc.
    by rewrite (ipSort_run _ ipAddress a).
  - intros Hv. rewrite (ipSort_run w ipAddress a Ha).
    by rewrite strict_eq_false.
Qed.

(** X12.  Whatever it is given, [getAllocType] returns one of the five names
    of its mapping or "Unknown", and [getNodeType] one of its five or
    "Unknown": the type columns are always sorted on strings. *)
Theorem type_name_is_listed (v : value) :
  getAllocType v ∈ [VStr "Automatic"; VStr "Static"; VStr "User reserved";
                    VStr "DHCP"; VStr "Observed"; VStr "Unknown"] ∧
  getNodeType v ∈ [VStr "Machine"; VStr "Device"; VStr "Rack controller";
                   VStr "Region controller";
                   VStr "Rack and region controller"; VStr "Unknown"].
Proof.
  unfold getAllocType, getNodeType, element, ALLOC_TYPES, NODE_TYPES.
  generalize (to_string v). intros k. split.
  - repeat (rewrite lookup_insert; case_decide;
            [cbn; rewrite !elem_of_cons; tauto|]).
    rewrite lookup_empty. cbn. rewrite !elem_of_cons. tauto.
  - repeat (rewrite lookup_insert; case_decide;
            [cbn; rewrite !elem_of_cons; tauto|]).
    rewrite lookup_empty. cbn. rewrite !elem_of_cons. tauto.
Qed.

Lemma getAllocType_name (n : Z) :
  getAllocType (VNum n) = VStr (alloc_type_name n).
Proof.
  destruct (decide (n ∈ [0; 1; 4; 5; 6]%Z)) as [Hin|Hout].
  - rewrite !elem_of_cons in Hin.
    destruct Hin as [->|[->|[->|[->|[->|Hin]]]]]; try by vm_compute.
    by apply elem_of_nil in Hin.
  - rewrite (getAllocType_unknown n Hout).
    rewrite !not_elem_of_cons in Hout.
    destruct Hout as (H0 & H1 & H4 & H5 & H6 & _).
    destruct n as [|p|p]; [done| |done].
    do 3 (destruct p as [p|p|]; try done).
Qed.

Lemma getNodeType_name (n : Z) :
  getNodeType (VNum n) = VStr (node_type_name n).
Proof.
  destruct (decide (n ∈ [0; 1; 2; 3; 4]%Z)) as [Hin|Hout].
  - rewrite !elem_of_cons in Hin.
    destruct Hin as [->|[->|[->|[->|[->|Hin]]]]]; try by vm_compute.
    by apply elem_of_nil in Hin.
  - rewrite (getNodeType_unknown n Hout).
    rewrite !not_elem_of_cons in Hout.
    destruct Hout as (H0 & H1 & H2 & H3 & H4 & _).
    destruct n as [|p|p]; [done| |done].
    do 3 (destruct p as [p|p|]; try done).
Qed.

(** X13.  The keys of the two type columns.  [allocTypeSort] gives every IP
    address object a key: the name of its [alloc_type] when that is an
    integer, and "Unknown" when the object has no [alloc_type].
    [nodeTypeSort] gives a key only to an object that has a [node_summary]:
    the name of the [node_type] of the summary, "Unknown" when the summary
    has none; on an object without a [node_summary] it faults with a
    TypeError.  Neither changes anything. *)
Theorem type_sort_keys (w : world) (ipAddress : value)
    (o : gmap string value) (Ho : is_object w ipAddress o) :
  (∀ code, prop o "alloc_type" = VNum code →
   allocTypeSort ipAddress w = (Returns (VStr (alloc_type_name code)), w)) ∧
  (o !! "alloc_type" = None →
   allocTypeSort ipAddress w = (Returns (VStr "Unknown"), w)) ∧
  (o !! "node_summary" = None →
   nodeTypeSort ipAddress w = (Throws TypeError, w)) ∧
  (∀ summary, is_object w (prop o "node_summary") summary →
     (∀ code, prop summary "node_type" = VNum code →
      nodeTypeSort ipAddress w
      = (Returns (VStr (node_type_name code)), w)) ∧
     (summary !! "node_type" = None →
      nodeTypeSort ipAddress w = (Returns (VStr "Unknown"), w))).
Proof.
  assert (E : allocTypeSort ipAddress w
              = (Returns (getAllocType (prop o "alloc_type")), w)).
  { unfold allocTypeSort.
    by rewrite (run_get w _ _ (prop o "alloc_type")) by by apply read_object. }
  split; [|split; [|split]].
  - intros code Hcode. by rewrite E, Hcode, getAllocType_name.
  - intros H. rewrite E. unfold prop. by rewrite H.
  - intros H. unfold nodeTypeSort.
    rewrite (run_get w _ _ (prop o "node_summary")) by by apply read_object.
    unfold prop. rewrite H. cbn [default]. by rewrite run_get_fault.
  - intros summary Hsum.
    assert (E' : nodeTypeSort ipAddress w
                 = (Returns (getNodeType (prop summary "node_type")), w)).
    { unfold nodeTypeSort.
      rewrite (run_get w _ _ (prop o "node_summary"))
        by by apply read_object.
      by rewrite (run_get w _ _ (prop summary "node_type"))
        by by apply read_object. }
    split.
    + intros code Hcode. by rewrite E', Hcode, getNodeType_name.
    + intros H. rewrite E'. unfold prop. by rewrite H.
Qed.

(** X14.  For an IP address object [ownerSort] returns the [user] of the
    address when that is a string that is not empty, and "MAAS" in every
    other case (no user, an empty one, a user that is not a string): the
    key is always a string that is not empty.  Nothing is changed. *)
Theorem ownerSort_key (w : world) (ipAddress : value)
    (o : gmap string value) (Ho : is_object w ipAddress o) :
  (∃ key, ownerSort ipAddress w = (Returns (VStr key), w) ∧ key ≠ "") ∧
  (∀ user, prop o "user" = VStr user → user ≠ "" →
           ownerSort ipAddress w = (Returns (VStr user), w)) ∧
  ((∀ user, prop o "user" = VStr user → user = "") →
   ownerSort ipAddress w = (Returns (VStr "MAAS"), w)).
Proof.
  assert (E : ownerSort ipAddress w =
              (Returns (match prop o "user" with
                        | VStr u => if (0 <? String.length u)%nat
                                    then VStr u else VStr "MAAS"
                        | _ => VStr "MAAS"
                        end), w)).
  { unfold ownerSort.
    rewrite (run_get w _ _ (prop o "user")) by by apply read_object.
    destruct (prop o "user") as [| | | | |u| | | |]; try done.
    by destruct (0 <? String.length u)%nat. }
  rewrite E. split; [|split].
  - destruct (prop o "user") as [| | | | |u| | | |]; try by eexists.
    destruct u as [|c u]; by eexists.
  - intros user -> Hu. by destruct user.
  - intros Hu. destruct (prop o "user") as [| | | | |u| | | |]; try done.
    by rewrite (Hu u eq_refl).
Qed.

End display.

Lemma title_of_loaded_subnet_witness :
  title (exec (SubnetDetailsController.subnetLoaded (VRef 0)) a_subnet)
  = VStr "10.0.0.0/24".
Proof.
  destruct (title_of_loaded_subnet a_subnet (VRef 0) subnet1
              (ex_intro _ 0 (conj eq_refl eq_refl))) as (_ & H & _).
  apply (H "10.0.0.0/24"); [reflexivity | discriminate | by left; left].
Defined.

Lemma ip_version_of_cidr_witness :
  ipVersion (scope (exec SubnetDetailsController.updateIPVersion a_subnet))
  = VNum 4.
Proof.
  destruct (ip_version_of_cidr a_subnet (VRef 0) subnet1 eq_refl
              (ex_intro _ 0 (conj eq_refl eq_refl))) as [H _].
  assert (Hslash : ¬ has_char "/" "10.0.0.0")
    by (unfold has_char; cbn; intuition discriminate).
  destruct (H "10.0.0.0" "24" Hslash (or_introl eq_refl)) as (_ & H4 & _).
  apply H4. unfold has_char; cbn; intuition discriminate.
Defined.

Lemma ipSort_follows_cidr_witness :
  SubnetDetailsController.ipSort (tagged "v4:") (tagged "v6:") (VRef 1)
    (exec SubnetDetailsController.updateIPVersion ip_table)
  = (tagged "v4:" (prop address7 "ip"),
     exec SubnetDetailsController.updateIPVersion ip_table).
Proof.
  assert (Hslash : ¬ has_char "/" "10.0.0.0")
    by (unfold has_char; cbn; intuition discriminate).
  destruct (ipSort_follows_cidr (tagged "v4:") (tagged "v6:") ip_table
              (VRef 0) (VRef 1) subnet1 address7 "10.0.0.0" "24" eq_refl
              (ex_intro _ 0 (conj eq_refl eq_refl)) eq_refl Hslash
              (ex_intro _ 1 (conj eq_refl eq_refl))) as [H _].
  apply H. unfold has_char; cbn; intuition discriminate.
Defined.

Lemma type_sort_keys_witness :
  SubnetDetailsController.allocTypeSort (VRef 1) ip_table
  = (Returns (VStr "User reserved"), ip_table) ∧
  SubnetDetailsController.nodeTypeSort (VRef 1) ip_table
  = (Throws TypeError, ip_table).
Proof.
  destruct (type_sort_keys ip_table (VRef 1) address7
              (ex_intro _ 1 (conj eq_refl eq_refl))) as (Ha & _ & Hn & _).
  split; [apply (Ha 4%Z); reflexivity | apply Hn; reflexivity].
Defined.

Lemma ownerSort_key_witness :
  SubnetDetailsController.ownerSort (VRef 1) ip_table
  = (Returns (VStr "alice"), ip_table).
Proof.
  destruct (ownerSort_key ip_table (VRef 1) address7
              (ex_intro _ 1 (conj eq_refl eq_refl))) as (_ & H & _).
  apply (H "alice"); [reflexivity | discriminate].
Defined.

(** ** SubnetDetailsController: what the events never change *)

Section page_invariants.

Import SubnetDetailsController.

Variable parseValidationError : value → value.

Ltac untouched_frame Hh Hc Ht Hs Hti Hpa Hr Hw :=
  open_controller;
  repeat first
    [ frame_step
    | apply preserves_put; exact Hh
    | apply preserves_alloc; exact Hh
    | apply preserves_invoke; exact Hc
    | apply preserves_then; exact Ht
    | apply preserves_modify; intros ? ?;
      first [apply Hs | apply Hti | apply Hpa | apply Hr | apply Hw];
      assumption ].

Lemma continue_untouched (P : world → Prop) (cb : callback) (r : settlement) :
  untouched P → preserves P (continue parseValidationError cb r).
Proof.
  intros (Hh & Hc & Ht & Hs & Hti & Hpa & Hr & Hw).
  destruct cb, r; unfold continue; untouched_frame Hh Hc Ht Hs Hti Hpa Hr Hw.
Qed.

Lemma handle_untouched (P : world → Prop) (e : event) (w : world) :
  untouched P → P w → P (handle parseValidationError e w).
Proof.
  intros HP. pose proof HP as (Hh & Hc & Ht & Hs & Hti & Hpa & Hr & Hw).
  revert w. destruct e; unfold handle;
    match goal with
    | |- ∀ w, P w → P (exec ?m w) => change (preserves P m)
    end.
  12: { apply settle_preserves; [exact Ht|].
        intros cb. by apply continue_untouched. }
  12: destruct l; unfold listen.
  all: untouched_frame Hh Hc Ht Hs Hti Hpa Hr Hw.
Qed.

Lemma events_untouched (P : world → Prop) (es : list event) (w : world) :
  untouched P → P w → P (foldl (λ w e, handle parseValidationError e w) w es).
Proof.
  intros HP. revert w. induction es as [|e es IH]; intros w H; [done|].
  cbn. apply IH. by apply handle_untouched.
Qed.

(** X15.  The page and the route are fixed by the controller's first lines:
    in every state of the page [$rootScope.page] is "networks", whatever it
    was before, and [$routeParams.subnet_id] is the value the page was
    entered with: no function of the scope and no continuation writes
    either. *)
Theorem page_and_route_fixed (es : list event) (w0 : world) :
  let w := after parseValidationError es w0 in
  page w = VStr "networks" ∧ subnet_id w = subnet_id w0.
Proof.
  cbv zeta. unfold after. split.
  - by apply (events_untouched (λ w, page w = VStr "networks")).
  - by apply (events_untouched (λ w, subnet_id w = subnet_id w0)).
Qed.

Lemma continue_keeps_loaded (cb : callback) (r : settlement) :
  preserves (λ w, loaded (scope w) = VBool true)
    (continue parseValidationError cb r).
Proof.
  destruct cb, r; unfold continue; controller_frame.
  all: apply preserves_modify; intros w H; first [exact H | reflexivity].
Qed.

Lemma handle_keeps_loaded (e : event) (w : world) :
  loaded (scope w) = VBool true →
  loaded (scope (handle parseValidationError e w)) = VBool true.
Proof.
  revert w. destruct e; unfold handle;
    match goal with
    | |- ∀ w, _ → loaded (scope (exec ?m w)) = _ =>
        change (preserves (λ w, loaded (scope w) = VBool true) m)
    end.
  12: { apply settle_preserves; [done|].
        intros cb. apply continue_keeps_loaded. }
  12: destruct l; unfold listen.
  all: controller_frame.
Qed.

(** X16.  Once the page is marked loaded it stays so: no later event,
    whatever its outcome, sets [$scope.loaded] back. *)
Theorem loaded_stays_loaded (es later : list event) (w0 : world)
    (Hloaded : loaded (scope (after parseValidationError es w0))
               = VBool true) :
  loaded (scope (after parseValidationError (es ++ later) w0)) = VBool true.
Proof.
  unfold after in *. rewrite foldl_app.
  revert Hloaded. generalize (foldl (λ w e, handle parseValidationError e w)
                                (exec controller w0) es).
  induction later as [|e later IH]; intros w H; [done|].
  cbn. apply IH. by apply handle_keeps_loaded.
Qed.

Lemma handle_keeps_loading (e : event) (w : world) :
  ¬ is_settlement e → loading w → loading (handle parseValidationError e w).
Proof.
  intros He. revert w. destruct e; unfold handle;
    try (by destruct He; eexists _, _);
    match goal with
    | |- ∀ w, loading w → loading (exec ?m w) =>
        change (preserves loading m)
    end.
  12: destruct l; unfold listen.
  all: controller_frame.
  all: apply preserves_modify; intros w H; exact H.
Qed.

(** X17.  The page is given its subnet by a promise settling and by nothing
    else: as long as no promise has settled, whatever the user does, the
    page is not loaded, its subnet is [null] and its title "Loading...". *)
Theorem loading_until_a_promise_settles (es : list event) (w0 : world)
    (Hes : Forall (λ e, ¬ is_settlement e) es) :
  loading (after parseValidationError es w0).
Proof.
  unfold after.
  assert (H : loading (exec controller w0)) by done.
  revert H. generalize (exec controller w0).
  induction Hes as [|e es He _ IH]; intros w H; [done|].
  cbn. apply IH. by apply handle_keeps_loading.
Qed.

End page_invariants.

Lemma loaded_stays_loaded_witness :
  loaded (scope (SubnetDetailsController.after error_text
                   ([SubnetDetailsController.Settles 0 (Resolved VNull)]
                    ++ [SubnetDetailsController.SortIPTable (VStr "ip");
                        SubnetDetailsController.AddRange (VStr "dynamic")])
                   active_subnet))
  = VBool true.
Proof.
  apply (loaded_stays_loaded error_text
           [SubnetDetailsController.Settles 0 (Resolved VNull)]).
  by vm_compute.
Defined.

Lemma loading_until_a_promise_settles_witness :
  loading (SubnetDetailsController.after error_text
             [SubnetDetailsController.AddRange (VStr "dynamic");
              SubnetDetailsController.DeleteButton] a_subnet).
Proof.
  apply (loading_until_a_promise_settles error_text).
  repeat constructor; intros (p & r & E); discriminate.
Defined.

(** ** SubnetDetailsController: the IP ranges *)

Section ip_ranges.

Import SubnetDetailsController.

Lemma addRange_run (w : world) (type s : value) (o : gmap string value) :
  subnet (scope w) = s →
  is_object w s o →
  addRange type w =
    (Returns tt,
     set_heap
       (heap w ++
        [Obj ((if strict_eq type (VStr "dynamic")
               then <["comment" := VStr "Dynamic"]> else id)
              (<["type" := type]> (<["subnet" := prop o "id"]>
              (<["start_ip" := VStr ""]> (<["end_ip" := VStr ""]>
              (<["comment" := VStr ""]> ∅))))))])
       (set_scope (upd_newRange (VRef (length (heap w))) (scope w)) w)).
Proof.
  intros Hs Ho. unfold addRange, member, assign. rewrite run_gets, Hs.
  rewrite (run_get w s "id" (prop o "id")) by by apply read_object.
  rewrite run_alloc, run_modify.
  destruct (strict_eq type (VStr "dynamic")); [|done].
  rewrite run_gets. unfold put, write.
  cbn [heap set_heap set_scope scope newRange upd_newRange].
  rewrite lookup_fresh.
  rewrite insert_app_r_alt, Nat.sub_diag by done. done.
Qed.

(** X18.  On a loaded page [addRange(type)] puts a new object in
    [$scope.newRange]: an object that did not exist before, with exactly the
    keys [type], [subnet], [start_ip], [end_ip] and [comment]; [subnet] is
    the [id] of the subnet of the scope, both addresses are empty, and the
    comment is "Dynamic" for the type "dynamic" and empty for every other
    type.  The objects that existed are unchanged. *)
Theorem addRange_creates (w : world) (type s : value)
    (o : gmap string value)
    (Hs : subnet (scope w) = s) (Ho : is_object w s o) :
  let w' := exec (addRange type) w in
  ∃ range,
    result (addRange type) w = Returns tt ∧
    newRange (scope w') = VRef (length (heap w)) ∧
    heap w !! length (heap w) = None ∧
    heap w' !! length (heap w) = Some (Obj range) ∧
    dom range = {["type"; "subnet"; "start_ip"; "end_ip"; "comment"]} ∧
    range !! "type" = Some type ∧
    range !! "subnet" = Some (prop o "id") ∧
    range !! "start_ip" = Some (VStr "") ∧
    range !! "end_ip" = Some (VStr "") ∧
    (type = VStr "dynamic" → range !! "comment" = Some (VStr "Dynamic")) ∧
    (type ≠ VStr "dynamic" → range !! "comment" = Some (VStr "")) ∧
    objects_kept w w'.
Proof.
  cbv zeta. unfold exec, result. rewrite (addRange_run w type s o Hs Ho).
  cbn [fst snd set_heap set_scope scope heap newRange upd_newRange].
  eexists. split; [done|]. split; [done|].
  split; [by apply lookup_ge_None_2|]. split; [apply lookup_fresh|].
  split.
  { destruct (strict_eq type (VStr "dynamic")); unfold id;
      rewrite !dom_insert_L, dom_empty_L; apply set_eq; intros k;
      rewrite !elem_of_union, !elem_of_singleton, elem_of_empty; tauto. }
  destruct (strict_eq type (VStr "dynamic")) eqn:E; unfold id.
  - apply strict_eq_true in E as [-> _].
    repeat split; try (by simplify_map_eq); by eapply objects_kept_app.
  - assert (type ≠ VStr "dynamic").
    { intros ->. by rewrite (proj2 (strict_eq_true _ _)) in E. }
    repeat split; try (by simplify_map_eq); by eapply objects_kept_app.
Qed.

(** X19.  While the scope has no subnet ([null] until the page is loaded),
    [addRange] faults with a TypeError and changes nothing: no range is
    started. *)
Theorem addRange_needs_subnet (w : world) (type : value)
    (Hs : nullish (subnet (scope w))) :
  addRange type w = (Throws TypeError, w).
Proof.
  unfold addRange, member. rewrite run_gets.
  by destruct Hs as [-> | ->].
Qed.

(** X20.  For a range that is an object: [isIPRangeInEditMode(range)] is
    true exactly when the range is the one in [$scope.editIPRange];
    [ipRangeToggleEditMode(range)] takes the range out of edit mode when it
    is in it and puts it in edit mode when it is not (in place of the range
    that was), and ends delete mode either way;
    [ipRangeEnterDeleteMode(range)] puts the range in delete mode and ends
    edit mode. *)
Theorem range_modes_switch (w : world) (l : loc) :
  let range := VRef l in
  let toggled := exec (ipRangeToggleEditMode range) w in
  let deleting := exec (ipRangeEnterDeleteMode range) w in
  (editIPRange (scope w) = range →
   result (isIPRangeInEditMode range) w = Returns true ∧
   editIPRange (scope toggled) = VNull) ∧
  (editIPRange (scope w) ≠ range →
   result (isIPRangeInEditMode range) w = Returns false ∧
   editIPRange (scope toggled) = range) ∧
  deleteIPRange (scope toggled) = VNull ∧
  deleteIPRange (scope deleting) = range ∧
  editIPRange (scope deleting) = VNull ∧
  result (isIPRangeInDeleteMode range) deleting = Returns true.
Proof.
  cbv zeta. unfold exec, result. rewrite ipRangeToggleEditMode_run.
  assert (Hself : strict_eq (VRef l) (VRef l) = true)
    by by apply strict_eq_true.
  split; [|split; [|split; [done|split; [done|split; [done|]]]]].
  - intros E.
    change (Returns (strict_eq (editIPRange (scope w)) (VRef l))
            = Returns true
            ∧ (if strict_eq (editIPRange (scope w)) (VRef l)
               then VNull else VRef l) = VNull).
    by rewrite E, Hself.
  - intros E.
    change (Returns (strict_eq (editIPRange (scope w)) (VRef l))
            = Returns false
            ∧ (if strict_eq (editIPRange (scope w)) (VRef l)
               then VNull else VRef l) = VRef l).
    by rewrite (strict_eq_false _ _ E).
  - change (Returns (strict_eq (VRef l) (VRef l)) = Returns true).
    by rewrite Hself.
Qed.

Lemma ipRangeConfirmDelete_run (w : world) :
  ipRangeConfirmDelete w =
    (Returns tt,
     set_thens (thens w ++ [(length (calls w), OnIPRangeDeleted)])
       (set_calls (calls w ++ [Call "IPRangesManager.deleteItem"
                                    [deleteIPRange (scope w)]]) w)).
Proof. reflexivity. Qed.

End ip_ranges.

Section ip_range_deletion.

Import SubnetDetailsController.

Variable parseValidationError : value → value.

Lemma ipRangeDeleted_clears (v : value) (w : world) :
  deleteIPRange (scope (exec (ipRangeDeleted (Resolved v)) w)) = VNull ∧
  editIPRange (scope (exec (ipRangeDeleted (Resolved v)) w))
  = editIPRange (scope w) ∧
  raised (exec (ipRangeDeleted (Resolved v)) w) = raised w.
Proof.
  set (P := λ w1 : world,
              deleteIPRange (scope w1) = VNull ∧
              editIPRange (scope w1) = editIPRange (scope w) ∧
              raised w1 = raised w).
  change (P (exec (ipRangeDeleted (Resolved v)) w)).
  change (exec (ipRangeDeleted (Resolved v)) w)
    with (exec (subnet ← member subnet;
                id ← get subnet "id";
                item ← SubnetsManager.getItem id;
                assign upd_subnet item)
               (set_scope (upd_deleteIPRange VNull (scope w)) w)).
  assert (Hrest : preserves P (subnet ← member subnet;
                               id ← get subnet "id";
                               item ← SubnetsManager.getItem id;
                               assign upd_subnet item)).
  { controller_frame. }
  by apply Hrest.
Qed.

(** X21.  [ipRangeConfirmDelete] calls [IPRangesManager.deleteItem] with the
    range in delete mode and leaves the scope as it is while the promise is
    pending.  When the promise is resolved the delete mode ends (the edit
    mode is not touched).  When it is rejected nothing happens at all: the
    range stays in delete mode, and no error is stored in the scope or
    raised. *)
Theorem ipRangeConfirmDelete_outcomes (w : world) (Hw : promises_known w) :
  let w1 := exec ipRangeConfirmDelete w in
  let p := length (calls w) in
  calls w1 = calls w ++ [Call "IPRangesManager.deleteItem"
                              [deleteIPRange (scope w)]] ∧
  scope w1 = scope w ∧
  (∀ v, let w2 := exec (settle parseValidationError p (Resolved v)) w1 in
        deleteIPRange (scope w2) = VNull ∧
        editIPRange (scope w2) = editIPRange (scope w) ∧
        raised w2 = raised w) ∧
  (∀ e, let w2 := exec (settle parseValidationError p (Rejected e)) w1 in
        scope w2 = scope w ∧ raised w2 = raised w ∧ heap w2 = heap w ∧
        calls w2 = calls w1).
Proof.
  cbv zeta.
  assert (E : exec ipRangeConfirmDelete w =
              set_thens (thens w ++ [(length (calls w), OnIPRangeDeleted)])
                (set_calls (calls w ++ [Call "IPRangesManager.deleteItem"
                                             [deleteIPRange (scope w)]]) w))
    by (unfold exec; by rewrite ipRangeConfirmDelete_run).
  rewrite E. split; [done|]. split; [done|]. split.
  - intros v. rewrite (settle_new_promise parseValidationError) by done.
    unfold continue.
    match goal with
    | |- context [exec _ ?w'] => exact (ipRangeDeleted_clears v w')
    end.
  - intros e. by rewrite (settle_new_promise parseValidationError).
Qed.

End ip_range_deletion.

(** *** Who may change a range *)

Section range_permissions.

Import SubnetDetailsController.

Variable UsersManager_isSuperUser UsersManager_getAuthUser : M value.

(** X22.  [ipRangeCanBeModified]: a super user may change every range (the
    range is not even looked at); any other user may change a range only
    when it is of type "reserved" and its [user] is the [id] of the
    authenticated user.  For a range of another type the answer is [false]
    without asking who the user is; for a reserved range with no
    authenticated user ([getAuthUser()] is [null] or [undefined]) the
    function faults with a TypeError.  Nothing is changed. *)
Theorem ipRangeCanBeModified_cases (w : world) (range : value) :
  (UsersManager_isSuperUser w = (Returns (VBool true), w) →
   ipRangeCanBeModified UsersManager_isSuperUser UsersManager_getAuthUser
     range w = (Returns (VBool true), w)) ∧
  (UsersManager_isSuperUser w = (Returns (VBool false), w) →
   ∀ o, is_object w range o →
     (prop o "type" ≠ VStr "reserved" →
      ipRangeCanBeModified UsersManager_isSuperUser UsersManager_getAuthUser
        range w = (Returns (VBool false), w)) ∧
     (prop o "type" = VStr "reserved" →
      ∀ authUser, UsersManager_getAuthUser w = (Returns authUser, w) →
        (nullish authUser →
         ipRangeCanBeModified UsersManager_isSuperUser
           UsersManager_getAuthUser range w = (Throws TypeError, w)) ∧
        (∀ u, is_object w authUser u →
           (prop o "user" = prop u "id" → prop u "id" ≠ VNaN →
            ipRangeCanBeModified UsersManager_isSuperUser
              UsersManager_getAuthUser range w
            = (Returns (VBool true), w)) ∧
           (prop o "user" ≠ prop u "id" →
            ipRangeCanBeModified UsersManager_isSuperUser
              UsersManager_getAuthUser range w
            = (Returns (VBool false), w))))).
Proof.
  unfold ipRangeCanBeModified, isSuperUser. split.
  - intros Hsuper. by rewrite run_bind, Hsuper.
  - intros Hsuper o Ho. rewrite run_bind, Hsuper. cbn [truthy].
    rewrite (run_get w _ _ (prop o "type")) by by apply read_object.
    split.
    + intros Htype. by rewrite strict_eq_false.
    + intros Htype authUser Hauth. rewrite Htype.
      rewrite (proj2 (strict_eq_true (VStr "reserved") (VStr "reserved")))
        by done.
      rewrite (run_get w _ _ (prop o "user")) by by apply read_object.
      rewrite run_bind, Hauth. split.
      * intros [-> | ->]; by rewrite run_get_fault.
      * intros u Hu.
        rewrite (run_get w _ _ (prop u "id")) by by apply read_object.
        split.
        -- intros E Hnan. rewrite E.
           by rewrite (proj2 (strict_eq_true (prop u "id") (prop u "id"))).
        -- intros E. by rewrite strict_eq_false.
Qed.

End range_permissions.

Lemma addRange_creates_witness :
  let w' := exec (SubnetDetailsController.addRange (VStr "dynamic"))
                 a_subnet in
  ∃ range,
    result (SubnetDetailsController.addRange (VStr "dynamic")) a_subnet
    = Returns tt ∧
    newRange (scope w') = VRef (length (heap a_subnet)) ∧
    heap a_subnet !! length (heap a_subnet) = None ∧
    heap w' !! length (heap a_subnet) = Some (Obj range) ∧
    dom range = {["type"; "subnet"; "start_ip"; "end_ip"; "comment"]} ∧
    range !! "type" = Some (VStr "dynamic") ∧
    range !! "subnet" = Some (prop subnet1 "id") ∧
    range !! "start_ip" = Some (VStr "") ∧
    range !! "end_ip" = Some (VStr "") ∧
    (VStr "dynamic" = VStr "dynamic" →
     range !! "comment" = Some (VStr "Dynamic")) ∧
    (VStr "dynamic" ≠ VStr "dynamic" →
     range !! "comment" = Some (VStr "")) ∧
    objects_kept a_subnet w'.
Proof.
  apply (addRange_creates a_subnet (VStr "dynamic") (VRef 0) subnet1);
    [reflexivity|].
  exists 0. split; reflexivity.
Defined.

Lemma addRange_needs_subnet_witness :
  SubnetDetailsController.addRange (VStr "reserved") one_vlan
  = (Throws TypeError, one_vlan).
Proof. apply (addRange_needs_subnet one_vlan). by left. Defined.

Lemma range_modes_switch_witness :
  result (SubnetDetailsController.isIPRangeInEditMode (VRef 0)) one_vlan
  = Returns false ∧
  editIPRange (scope (exec (SubnetDetailsController.ipRangeToggleEditMode
                              (VRef 0)) one_vlan))
  = VRef 0.
Proof.
  destruct (range_modes_switch one_vlan 0) as (_ & H & _).
  apply H. discriminate.
Defined.

Lemma ipRangeConfirmDelete_outcomes_witness :
  let w1 := exec SubnetDetailsController.ipRangeConfirmDelete one_vlan in
  let p := length (calls one_vlan) in
  calls w1 = calls one_vlan ++ [Call "IPRangesManager.deleteItem"
                                     [deleteIPRange (scope one_vlan)]] ∧
  scope w1 = scope one_vlan ∧
  (∀ v, let w2 := exec (SubnetDetailsController.settle error_text p
                          (Resolved v)) w1 in
        deleteIPRange (scope w2) = VNull ∧
        editIPRange (scope w2) = editIPRange (scope one_vlan) ∧
        raised w2 = raised one_vlan) ∧
  (∀ e, let w2 := exec (SubnetDetailsController.settle error_text p
                          (Rejected e)) w1 in
        scope w2 = scope one_vlan ∧ raised w2 = raised one_vlan ∧
        heap w2 = heap one_vlan ∧ calls w2 = calls w1).
Proof.
  apply (ipRangeConfirmDelete_outcomes error_text one_vlan).
  apply Forall_nil_2.
Defined.

Lemma ipRangeCanBeModified_cases_witness :
  SubnetDetailsController.ipRangeCanBeModified plain_user nobody (VRef 0)
    one_vlan
  = (Returns (VBool false), one_vlan).
Proof.
  destruct (ipRangeCanBeModified_cases plain_user nobody one_vlan (VRef 0))
    as [_ H].
  destruct (H eq_refl vlan10 (ex_intro _ 0 (conj eq_refl eq_refl)))
    as [H' _].
  apply H'. by vm_compute.
Defined.

(** ** The log rotation of the proxy *)

Section proxy_logrotate.

Import ProxyLogrotate.


End proxy_logrotate.


(** With squid3 alone and the proxy running, squid3 is told to rotate. *)
Example postrotate_squid3 :
  ProxyLogrotate.ran (ProxyLogrotate.postrotate squid3_running)
  = [["/usr/sbin/squid3"; "-f"; "/var/lib/maas/maas-proxy.conf"; "-k";
      "rotate"]].
Proof. reflexivity. Qed.
